(** * SceneJS.BoundingBox: visibility culling, memoisation levels and LOD selection

    A shallow embedding of [src/scenejs/boundary/boundingBox.js].

    The node object is a record, its methods are computations in a small
    monad that threads the node ([this]), collects the calls made on the
    collaborating modules in a log, and propagates a thrown exception.

    JavaScript numbers are modelled by [Z]: the file only stores, defaults
    ([x || 0]) and compares them.  A value that may be [undefined] or [null]
    is an [option]. *)

From Stdlib Require Import ZArith Lia String.
From stdpp Require Import base list.

Local Open Scope Z_scope.

(** ** Values *)

Definition Point : Type := Z * Z * Z.

(** An axis-aligned box [{ min: [x,y,z], max: [x,y,z] }]. *)
Record Box3 : Type := { box_min : Point; box_max : Point }.

(** The configuration object handed to [_init]; an absent field is [None]. *)
Record Params : Type := {
  xmin : option Z; ymin : option Z; zmin : option Z;
  xmax : option Z; ymax : option Z; zmax : option Z;
  levels : option (list Z)
}.

(** [v || 0] on a number or [undefined]. *)
Definition or_zero (v : option Z) : Z := default 0 v.

(** [v == k] and [v < k] where [v] is a number or [undefined]:
    [undefined == 0] is [false], and [undefined < 2] compares [NaN]. *)
Definition js_eq (v : option Z) (k : Z) : bool :=
  match v with Some z => z =? k | None => false end.

Definition js_lt (v : option Z) (k : Z) : bool :=
  match v with Some z => z <? k | None => false end.

(** [a >= b] and [a <= b] on array reads, [undefined] when out of range. *)
Definition js_ge (a b : option Z) : bool :=
  match a, b with Some x, Some y => x >=? y | _, _ => false end.

Definition js_le (a : option Z) (b : Z) : bool :=
  match a with Some x => x <=? b | None => false end.

(** Both errors of [_init] are [SceneJS.NodeConfigExpectedException]s and
    differ in their message. *)
Inductive exception : Type :=
  NodeConfigExpectedException (message : string).

Definition ConfigMismatch : exception :=
  NodeConfigExpectedException
    "SceneJS.boundingBox levels property should have a value for each child node".

Definition ConfigOrder : exception :=
  NodeConfigExpectedException
    "SceneJS.boundingBox levels property should be an ascending list of unique values".

(** Result of [SceneJS_frustumModule.testAxisBoxIntersection]. *)
Inductive FrustumResult : Type :=
  | SceneJS_math_INTERSECT_FRUSTUM
  | SceneJS_math_INSIDE_FRUSTUM
  | SceneJS_math_OUTSIDE_FRUSTUM.

#[global] Instance FrustumResult_eq_dec : EqDecision FrustumResult.
Proof. solve_decision. Defined.

(** How a method call ends: it returns, or an exception escapes it. *)
Inductive completion (A : Type) : Type :=
  | Normal (a : A)
  | Abrupt (e : exception).
Arguments Normal {A} a.
Arguments Abrupt {A} e.

Section BoundingBox.

(** The scope object passed down the traversal and the matrix type of the
    model transform module are opaque to this file, and so are the two
    functions of the math library. *)
Variable Data : Type.
Variable Matrix : Type.
Variable SceneJS_math_transformPoints3 : Matrix -> option (list Point) -> list Point.
Variable fromPoints : list Point -> Box3.

(** [SceneJS_modelTransformModule.getTransform()]. *)
Record Transform : Type := {
  matrix : Matrix;
  identity : bool;
  fixed : bool
}.

(** What the collaborating modules answer during one traversal. *)
Record Env : Type := {
  data : Data;
  getTransform : Transform;
  instancing : bool;
  testAxisBoxIntersectOuterRadius : option Box3 -> bool;
  testAxisBoxIntersectInnerRadius : option Box3 -> bool;
  testAxisBoxIntersection : option Box3 -> FrustumResult;
  getProjectedSize : option Box3 -> Z
}.

(** ** The node object

    [_children], [_fixedParams], [_getParams] and [_memoLevel] are the fields
    of the base class [SceneJS.Node] this file reads; the children are
    identified by their index.  [_memoLevel] is [None] while [undefined].
    The constructor clears a field spelled [_objectsCoords]; the field
    [_render] uses is [_objectCoords], [undefined] until [_render] assigns it. *)
Record BoundingBox : Type := {
  _children : nat;
  _fixedParams : bool;
  _getParams : option Data -> Params;
  _memoLevel : option Z;
  _xmin : Z; _ymin : Z; _zmin : Z;
  _xmax : Z; _ymax : Z; _zmax : Z;
  _levels : option (list Z);
  _objectCoords : option (list Point);
  _viewBox : option Box3
}.

Definition set_memoLevel (v : option Z) (this : BoundingBox) : BoundingBox :=
  {| _children := _children this; _fixedParams := _fixedParams this;
     _getParams := _getParams this; _memoLevel := v;
     _xmin := _xmin this; _ymin := _ymin this; _zmin := _zmin this;
     _xmax := _xmax this; _ymax := _ymax this; _zmax := _zmax this;
     _levels := _levels this; _objectCoords := _objectCoords this;
     _viewBox := _viewBox this |}.

Definition set_extents (x0 y0 z0 x1 y1 z1 : Z) (this : BoundingBox) : BoundingBox :=
  {| _children := _children this; _fixedParams := _fixedParams this;
     _getParams := _getParams this; _memoLevel := _memoLevel this;
     _xmin := x0; _ymin := y0; _zmin := z0;
     _xmax := x1; _ymax := y1; _zmax := z1;
     _levels := _levels this; _objectCoords := _objectCoords this;
     _viewBox := _viewBox this |}.

Definition set_levels (v : option (list Z)) (this : BoundingBox) : BoundingBox :=
  {| _children := _children this; _fixedParams := _fixedParams this;
     _getParams := _getParams this; _memoLevel := _memoLevel this;
     _xmin := _xmin this; _ymin := _ymin this; _zmin := _zmin this;
     _xmax := _xmax this; _ymax := _ymax this; _zmax := _zmax this;
     _levels := v; _objectCoords := _objectCoords this;
     _viewBox := _viewBox this |}.

Definition set_objectCoords (v : option (list Point)) (this : BoundingBox) : BoundingBox :=
  {| _children := _children this; _fixedParams := _fixedParams this;
     _getParams := _getParams this; _memoLevel := _memoLevel this;
     _xmin := _xmin this; _ymin := _ymin this; _zmin := _zmin this;
     _xmax := _xmax this; _ymax := _ymax this; _zmax := _zmax this;
     _levels := _levels this; _objectCoords := v;
     _viewBox := _viewBox this |}.

Definition set_viewBox (v : option Box3) (this : BoundingBox) : BoundingBox :=
  {| _children := _children this; _fixedParams := _fixedParams this;
     _getParams := _getParams this; _memoLevel := _memoLevel this;
     _xmin := _xmin this; _ymin := _ymin this; _zmin := _zmin this;
     _xmax := _xmax this; _ymax := _ymax this; _zmax := _zmax this;
     _levels := _levels this; _objectCoords := _objectCoords this;
     _viewBox := v |}.

(** ** Calls on collaborators, in the order they are made *)
Inductive event : Type :=
  | GetParams (d : option Data)
  | FatalError (e : exception)
  | TransformPoints3 (m : Matrix) (coords : option (list Point))
  | OuterRadiusTest (b : option Box3)
  | InnerRadiusTest (b : option Box3)
  | FrustumTest (b : option Box3)
  | ProjectedSize (b : option Box3)
  | RenderNode (i : nat)
  | RenderNodes.

(** ** The method monad *)
Definition M (A : Type) : Type :=
  BoundingBox -> completion A * BoundingBox * list event.

Definition ret {A} (a : A) : M A := fun this => (Normal a, this, []).

Definition bind {A B} (m : M A) (f : A -> M B) : M B :=
  fun this =>
    match m this with
    | (Normal a, this1, l1) =>
        match f a this1 with
        | (r, this2, l2) => (r, this2, l1 ++ l2)
        end
    | (Abrupt e, this1, l1) => (Abrupt e, this1, l1)
    end.

Definition get : M BoundingBox := fun this => (Normal this, this, []).

Definition modify (f : BoundingBox -> BoundingBox) : M unit :=
  fun this => (Normal tt, f this, []).

Definition call {A} (ev : event) (answer : A) : M A :=
  fun this => (Normal answer, this, [ev]).

Notation "'let!' x ':=' m 'in' k" := (bind m (fun x => k))
  (at level 10, x name, m at level 100, k at level 200).
Notation "m >> k" := (bind m (fun _ => k))
  (at level 100, k at level 200, right associativity).

(** Modelled from the spec: [SceneJS_errorModule.fatalError] is not in this
    file; the configuration errors are fatal, not recoverable, and abort the
    surrounding build or traversal, so the call does not return. *)
Definition fatalError {A} (e : exception) : M A :=
  fun this => (Abrupt e, this, [FatalError e]).

(** The six assignments [this._xmin = o.xmin || 0; ..] shared by
    [setBoundary] and [_init]. *)
Definition assign_extents (o : Params) (this : BoundingBox) : BoundingBox :=
  set_extents (or_zero (xmin o)) (or_zero (ymin o)) (or_zero (zmin o))
              (or_zero (xmax o)) (or_zero (ymax o)) (or_zero (zmax o)) this.

(** ** Accessors

    The setters end in [return this]; the node is what the monad threads. *)

Definition setXMin (v : Z) : M unit :=
  modify (fun this =>
    set_memoLevel (Some 0)
      (set_extents v (_ymin this) (_zmin this) (_xmax this) (_ymax this) (_zmax this) this)).

Definition setYMin (v : Z) : M unit :=
  modify (fun this =>
    set_memoLevel (Some 0)
      (set_extents (_xmin this) v (_zmin this) (_xmax this) (_ymax this) (_zmax this) this)).

Definition setZMin (v : Z) : M unit :=
  modify (fun this =>
    set_memoLevel (Some 0)
      (set_extents (_xmin this) (_ymin this) v (_xmax this) (_ymax this) (_zmax this) this)).

Definition setXMax (v : Z) : M unit :=
  modify (fun this =>
    set_memoLevel (Some 0)
      (set_extents (_xmin this) (_ymin this) (_zmin this) v (_ymax this) (_zmax this) this)).

Definition setYMax (v : Z) : M unit :=
  modify (fun this =>
    set_memoLevel (Some 0)
      (set_extents (_xmin this) (_ymin this) (_zmin this) (_xmax this) v (_zmax this) this)).

Definition setZMax (v : Z) : M unit :=
  modify (fun this =>
    set_memoLevel (Some 0)
      (set_extents (_xmin this) (_ymin this) (_zmin this) (_xmax this) (_ymax this) v this)).

Definition getXMin : M Z := let! this := get in ret (_xmin this).
Definition getYMin : M Z := let! this := get in ret (_ymin this).
Definition getZMin : M Z := let! this := get in ret (_zmin this).
Definition getXMax : M Z := let! this := get in ret (_xmax this).
Definition getYMax : M Z := let! this := get in ret (_ymax this).
Definition getZMax : M Z := let! this := get in ret (_zmax this).

(** The [boundary] argument has the six extent fields of [Params]. *)
Definition setBoundary (boundary : Params) : M unit :=
  modify (fun this => set_memoLevel (Some 0) (assign_extents boundary this)).

Definition getBoundary : M Params :=
  let! this := get in
  ret {| xmin := Some (_xmin this); ymin := Some (_ymin this);
         zmin := Some (_zmin this); xmax := Some (_xmax this);
         ymax := Some (_ymax this); zmax := Some (_zmax this);
         levels := None |}.

(** ** [_init] *)

(** [for (var i = 1; i < levels.length; i++) if (levels[i-1] >= levels[i]) fatalError(..)];
    [n] counts the iterations left. *)
Fixpoint ascending_loop (ls : list Z) (i n : nat) : M unit :=
  match n with
  | O => ret tt
  | S n' =>
      (if js_ge (ls !! (i - 1)%nat) (ls !! i)
       then fatalError ConfigOrder else ret tt) >>
      ascending_loop ls (S i) n'
  end.

Definition _init (params : Params) : M unit :=
  modify (assign_extents params) >>
  match levels params with
  | Some ls =>
      let! this := get in
      (if negb (length ls =? _children this)%nat
       then fatalError ConfigMismatch else ret tt) >>
      ascending_loop ls 1 (length ls - 1) >>
      modify (set_levels (Some ls))
  | None => ret tt
  end.

(** ** [_render] *)

Definition objectCoords_of (this : BoundingBox) : list Point :=
  [ (_xmin this, _ymin this, _zmin this);
    (_xmax this, _ymin this, _zmin this);
    (_xmax this, _ymax this, _zmin this);
    (_xmin this, _ymax this, _zmin this);
    (_xmin this, _ymin this, _zmax this);
    (_xmax this, _ymin this, _zmax this);
    (_xmax this, _ymax this, _zmax this);
    (_xmin this, _ymax this, _zmax this) ].

Definition viewBox_of (this : BoundingBox) : Box3 :=
  {| box_min := (_xmin this, _ymin this, _zmin this);
     box_max := (_xmax this, _ymax this, _zmax this) |}.

(** [for (var i = levels.length - 1; i >= 0; i--)
       if (levels[i] <= size) { this._renderNode(i, ..); return; }];
    [k] is [i + 1]. *)
Fixpoint lod_loop (ls : list Z) (size : Z) (k : nat) : M unit :=
  match k with
  | O => ret tt
  | S i =>
      if js_le (ls !! i) size
      then call (RenderNode i) tt
      else lod_loop ls size i
  end.

(** Lines 284-315: the block guarded by [this._memoLevel == 0]. *)
Definition render_level0 (env : Env) : M unit :=
  let! this := get in
  if js_eq (_memoLevel this) 0 then
    (if negb (_fixedParams this) then
       let! params := call (GetParams (Some (data env)))
                      (_getParams this (Some (data env))) in
       _init params
     else modify (set_memoLevel (Some 1))) >>
    let modelTransform := getTransform env in
    if negb (identity modelTransform) then
      modify (fun this => set_objectCoords (Some (objectCoords_of this)) this)
    else
      modify (fun this =>
        set_memoLevel (Some 2) (set_viewBox (Some (viewBox_of this)) this))
  else ret tt.

(** Lines 317-328: the block guarded by [this._memoLevel < 2]. *)
Definition render_level1 (env : Env) : M unit :=
  let! this := get in
  if js_lt (_memoLevel this) 2 then
    let modelTransform := getTransform env in
    let! coords := call (TransformPoints3 (matrix modelTransform) (_objectCoords this))
                   (SceneJS_math_transformPoints3 (matrix modelTransform)
                                                  (_objectCoords this)) in
    modify (set_viewBox (Some (fromPoints coords))) >>
    let! this := get in
    if fixed modelTransform && js_eq (_memoLevel this) 1 && negb (instancing env)
    then modify (fun this => set_memoLevel (Some 2) (set_objectCoords None this))
    else ret tt
  else ret tt.

(** Lines 329-361: locality tests, frustum test and dispatch. *)
Definition render_visible (env : Env) : M unit :=
  let! this := get in
  let! outer := call (OuterRadiusTest (_viewBox this))
                (testAxisBoxIntersectOuterRadius env (_viewBox this)) in
  if outer then
    let! inner := call (InnerRadiusTest (_viewBox this))
                  (testAxisBoxIntersectInnerRadius env (_viewBox this)) in
    if inner then
      let! result := call (FrustumTest (_viewBox this))
                     (testAxisBoxIntersection env (_viewBox this)) in
      match result with
      | SceneJS_math_INTERSECT_FRUSTUM
      | SceneJS_math_INSIDE_FRUSTUM =>
          match _levels this with
          | Some ls =>
              let! size := call (ProjectedSize (_viewBox this))
                           (getProjectedSize env (_viewBox this)) in
              lod_loop ls size (length ls)
          | None => call RenderNodes tt
          end
      | SceneJS_math_OUTSIDE_FRUSTUM => ret tt
      end
    else call RenderNodes tt
  else ret tt.

Definition _render (env : Env) : M unit :=
  render_level0 env >> render_level1 env >> render_visible env.

(** One traversal per scene update; a fatal error stops the sequence. *)
Fixpoint traversals (envs : list Env) : M unit :=
  match envs with
  | [] => ret tt
  | env :: rest => _render env >> traversals rest
  end.

(** Modelled from the spec: [_renderNode] and [_renderNodes] belong to
    [SceneJS.Node], which is not in this file.  [_renderNode(i, ..)]
    traverses the single child at index [i], [_renderNodes(..)] traverses
    all children in order. *)
Definition visits (nchildren : nat) (ev : event) : list nat :=
  match ev with
  | RenderNode i => [i]
  | RenderNodes => seq 0 nchildren
  | _ => []
  end.

Definition traversed (nchildren : nat) (log : list event) : list nat :=
  flat_map (visits nchildren) log.

(** ** Construction *)

(** The first constructor argument: a parameter object, or a function that
    computes one from the traversal data. *)
Inductive Config : Type :=
  | FixedConfig (params : Params)
  | DynamicConfig (f : option Data -> Params).

Record NodeArgs : Type := { config : Config; children : nat }.

(** The fields of [this] that [SceneJS.Node.apply(this, arguments)] leaves
    for the code of this file. *)
Record Node : Type := {
  node_children : nat;
  node_fixedParams : bool;
  node_getParams : option Data -> Params;
  node_memoLevel : option Z
}.

(** Modelled from the spec: the constructor of [SceneJS.Node] is not in this
    file.  The configuration mode, fixed or dynamic, is selected once at
    construction.  The cache state is one of UNINITIALIZED (0), PARTIAL (1)
    and FULL (2); PARTIAL means the corner points are cached and FULL that
    the world box is, so a node with neither is UNINITIALIZED. *)
Definition SceneJS_Node (args : NodeArgs) : Node :=
  {| node_children := children args;
     node_fixedParams :=
       match config args with FixedConfig _ => true | DynamicConfig _ => false end;
     node_getParams :=
       match config args with FixedConfig p => fun _ => p | DynamicConfig f => f end;
     node_memoLevel := Some 0 |}.

(** Lines 74-84: the assignments of the constructor, on the object left by
    the base constructor.  No assignment is made to [_memoLevel]. *)
Definition constructed_fields (base : Node) : BoundingBox :=
  {| _children := node_children base;
     _fixedParams := node_fixedParams base;
     _getParams := node_getParams base;
     _memoLevel := node_memoLevel base;
     _xmin := 0; _ymin := 0; _zmin := 0;
     _xmax := 0; _ymax := 0; _zmax := 0;
     _levels := None;
     _objectCoords := None;
     _viewBox := None |}.

(** Lines 72-88. *)
Definition SceneJS_BoundingBox (base : Node)
  : completion unit * BoundingBox * list event :=
  (let! this := get in
   if _fixedParams this then
     let! params := call (GetParams None) (_getParams this None) in
     _init params
   else ret tt)
  (constructed_fields base).

Definition new_BoundingBox (args : NodeArgs)
  : completion unit * BoundingBox * list event :=
  SceneJS_BoundingBox (SceneJS_Node args).

(** ** Properties named by the specification *)

(** The thresholds are strictly ascending. *)
Definition strictly_ascending (ls : list Z) : Prop :=
  forall (i : nat) (a b : Z),
    (1 <= i)%nat -> ls !! (i - 1)%nat = Some a -> ls !! i = Some b -> a < b.

(** Some adjacent pair has [levels[i-1] >= levels[i]]. *)
Definition unordered_pair (ls : list Z) : Prop :=
  exists (i : nat) (a b : Z),
    (1 <= i)%nat /\ ls !! (i - 1)%nat = Some a /\ ls !! i = Some b /\ a >= b.

(** [i] is the largest index whose threshold is at most [size]. *)
Definition largest_level_below (ls : list Z) (size : Z) (i : nat) : Prop :=
  (exists l, ls !! i = Some l /\ l <= size) /\
  forall (j : nat) (l : Z), (i < j)%nat -> ls !! j = Some l -> size < l.

(** A call of the two memoised blocks: the parameters are read again (and
    an error raised while they are applied), or the corner points are
    transformed. *)
Definition recomputes (ev : event) : bool :=
  match ev with
  | GetParams _ | FatalError _ | TransformPoints3 _ _ => true
  | _ => false
  end.

(** A call that traverses children. *)
Definition dispatches (ev : event) : bool :=
  match ev with
  | RenderNode _ | RenderNodes => true
  | _ => false
  end.

(** A method that only resets the memo level: it calls no collaborator and
    leaves the cached corner points and box as they are. *)
Definition resets_memoLevel (m : M unit) : Prop :=
  forall this : BoundingBox,
    exists this' : BoundingBox,
      m this = (Normal tt, this', []) /\
      _memoLevel this' = Some 0 /\
      _objectCoords this' = _objectCoords this /\
      _viewBox this' = _viewBox this.

(** The box a visibility query is made on. *)
Definition queried_box (ev : event) : option (option Box3) :=
  match ev with
  | OuterRadiusTest b | InnerRadiusTest b | FrustumTest b | ProjectedSize b => Some b
  | _ => None
  end.

End BoundingBox.

Arguments Build_NodeArgs {Data} config children.
Arguments FixedConfig {Data} params.
Arguments DynamicConfig {Data} f.
Arguments config {Data} n.
Arguments children {Data} n.
Arguments Build_Transform {Matrix} matrix identity fixed.
Arguments matrix {Matrix} t.
Arguments identity {Matrix} t.
Arguments fixed {Matrix} t.
Arguments data {Data Matrix} e.
Arguments getTransform {Data Matrix} e.
Arguments instancing {Data Matrix} e.
Arguments testAxisBoxIntersectOuterRadius {Data Matrix} e b.
Arguments testAxisBoxIntersectInnerRadius {Data Matrix} e b.
Arguments testAxisBoxIntersection {Data Matrix} e b.
Arguments getProjectedSize {Data Matrix} e b.
Arguments _children {Data} b.
Arguments _fixedParams {Data} b.
Arguments _getParams {Data} b d.
Arguments _memoLevel {Data} b.
Arguments _xmin {Data} b.
Arguments _ymin {Data} b.
Arguments _zmin {Data} b.
Arguments _xmax {Data} b.
Arguments _ymax {Data} b.
Arguments _zmax {Data} b.
Arguments _levels {Data} b.
Arguments _objectCoords {Data} b.
Arguments _viewBox {Data} b.
Arguments set_memoLevel {Data} v this.
Arguments set_extents {Data} x0 y0 z0 x1 y1 z1 this.
Arguments set_levels {Data} v this.
Arguments assign_extents {Data} o this.
Arguments set_objectCoords {Data} v this.
Arguments set_viewBox {Data} v this.
Arguments objectCoords_of {Data} this.
Arguments viewBox_of {Data} this.
Arguments GetParams {Data Matrix} d.
Arguments FatalError {Data Matrix} e.
Arguments TransformPoints3 {Data Matrix} m coords.
Arguments OuterRadiusTest {Data Matrix} b.
Arguments InnerRadiusTest {Data Matrix} b.
Arguments FrustumTest {Data Matrix} b.
Arguments ProjectedSize {Data Matrix} b.
Arguments RenderNode {Data Matrix} i.
Arguments RenderNodes {Data Matrix}.
Arguments ret {Data Matrix A} a this.
Arguments bind {Data Matrix A B} m f this.
Arguments get {Data Matrix} this.
Arguments modify {Data Matrix} f this.
Arguments call {Data Matrix A} ev answer this.
Arguments fatalError {Data Matrix A} e this.
Arguments setXMin {Data Matrix} v this.
Arguments setYMin {Data Matrix} v this.
Arguments setZMin {Data Matrix} v this.
Arguments setXMax {Data Matrix} v this.
Arguments setYMax {Data Matrix} v this.
Arguments setZMax {Data Matrix} v this.
Arguments setBoundary {Data Matrix} boundary this.
Arguments getBoundary {Data Matrix} this.
Arguments getXMin {Data Matrix} this.
Arguments getYMin {Data Matrix} this.
Arguments getZMin {Data Matrix} this.
Arguments getXMax {Data Matrix} this.
Arguments getYMax {Data Matrix} this.
Arguments getZMax {Data Matrix} this.
Arguments ascending_loop {Data Matrix} ls i n this.
Arguments _init {Data Matrix} params this.
Arguments lod_loop {Data Matrix} ls size k this.
Arguments render_level0 {Data Matrix} env this.
Arguments render_level1 {Data Matrix} SceneJS_math_transformPoints3 fromPoints env this.
Arguments render_visible {Data Matrix} env this.
Arguments _render {Data Matrix} SceneJS_math_transformPoints3 fromPoints env this.
Arguments traversals {Data Matrix} SceneJS_math_transformPoints3 fromPoints envs this.
Arguments visits {Data Matrix} nchildren ev.
Arguments traversed {Data Matrix} nchildren log.
Arguments node_children {Data} n.
Arguments node_fixedParams {Data} n.
Arguments node_getParams {Data} n d.
Arguments node_memoLevel {Data} n.
Arguments SceneJS_Node {Data} args.
Arguments SceneJS_BoundingBox {Data Matrix} base.
Arguments constructed_fields {Data} base.
Arguments resets_memoLevel {Data Matrix} m.
Arguments new_BoundingBox {Data Matrix} args.
Arguments recomputes {Data Matrix} ev.
Arguments queried_box {Data Matrix} ev.
Arguments dispatches {Data Matrix} ev.

(** ** A concrete scene for the examples

    The model transform is a translation along x, the data is the time of
    the frame, and the box of a point set is computed coordinate-wise. *)

Definition translate_points (dx : Z) (coords : option (list Point)) : list Point :=
  map (fun p : Point => let '(x, y, z) := p in (x + dx, y, z)) (default [] coords).

Definition box_of_points (pts : list Point) : Box3 :=
  match pts with
  | [] => {| box_min := (0, 0, 0); box_max := (0, 0, 0) |}
  | p :: rest =>
      fold_left
        (fun (b : Box3) (q : Point) =>
           let '(x, y, z) := q in
           let '(x0, y0, z0) := box_min b in
           let '(x1, y1, z1) := box_max b in
           {| box_min := (Z.min x0 x, Z.min y0 y, Z.min z0 z);
              box_max := (Z.max x1 x, Z.max y1 y, Z.max z1 z) |})
        rest {| box_min := p; box_max := p |}
  end.

Definition cube_params (half : Z) (ls : option (list Z)) : Params :=
  {| xmin := Some (- half); ymin := Some (- half); zmin := Some (- half);
     xmax := Some half; ymax := Some half; zmax := Some half;
     levels := ls |}.

(** Everything is inside both radii and inside the frustum. *)
Definition scene (t : Z) (is_identity is_fixed is_instancing : bool) (size : Z)
  : Env Z Z :=
  {| data := t;
     getTransform :=
       {| matrix := 5; identity := is_identity; fixed := is_fixed |};
     instancing := is_instancing;
     testAxisBoxIntersectOuterRadius := fun _ => true;
     testAxisBoxIntersectInnerRadius := fun _ => true;
     testAxisBoxIntersection := fun _ => SceneJS_math_INSIDE_FRUSTUM;
     getProjectedSize := fun _ => size |}.

(** The same scene seen from where the box misses the inner radius, or
    both radii, while the frustum test would answer OUTSIDE. *)
Definition far_scene (outer inner : bool) : Env Z Z :=
  {| data := 0;
     getTransform := {| matrix := 5; identity := true; fixed := true |};
     instancing := false;
     testAxisBoxIntersectOuterRadius := fun _ => outer;
     testAxisBoxIntersectInnerRadius := fun _ => inner;
     testAxisBoxIntersection := fun _ => SceneJS_math_OUTSIDE_FRUSTUM;
     getProjectedSize := fun _ => 250 |}.

(** A node as [new SceneJS.BoundingBox(config, child_1, .., child_n)]
    leaves it. *)
Definition construct (cfg : Config Z) (n : nat) : BoundingBox Z :=
  snd (fst (new_BoundingBox (Matrix:=Z) {| config := cfg; children := n |})).

(** The node of the class documentation: a cube of half-width 2 with four
    children and thresholds 10, 200, 400, 600. *)
Definition lod_box : BoundingBox Z :=
  construct (FixedConfig (cube_params 2 (Some [10; 200; 400; 600]))) 4.

(** The same node once a static translation has been traversed. *)
Definition frozen_box : BoundingBox Z :=
  snd (fst (_render translate_points box_of_points
              (scene 0 false true false 250) lod_box)).

(** A node with two children whose half-width follows the frame time. *)
Definition pulsing_box : BoundingBox Z :=
  construct (DynamicConfig (fun t => cube_params (default 0 t) None)) 2.

(** A node with two children whose thresholds change with the frame:
    well-formed at frame 0, one too many at frame 1, out of order later. *)
Definition scripted_levels (t : option Z) : list Z :=
  match default 0 t with
  | 0 => [10; 200]
  | 1 => [10; 200; 400]
  | _ => [200; 10]
  end.

Definition scripted_box : BoundingBox Z :=
  construct (DynamicConfig (fun t => cube_params 2 (Some (scripted_levels t)))) 2.

(** The documented node under a model transform that may still change:
    it keeps its corner points and stays at level 1. *)
Definition partial_box : BoundingBox Z :=
  snd (fst (_render translate_points box_of_points
              (scene 0 false false false 250) lod_box)).

(** A node without children whose parameters give an empty list of
    thresholds. *)
Definition leaf_box : BoundingBox Z :=
  construct (DynamicConfig (fun _ => cube_params 1 (Some []))) 0.

(** * Properties *)

Section Properties.

Variable Data : Type.
Variable Matrix : Type.
Variable transformPoints3 : Matrix -> option (list Point) -> list Point.
Variable fromPoints : list Point -> Box3.

Abbreviation node := (BoundingBox Data).
Abbreviation env := (Env Data Matrix).
Abbreviation trace := (list (event Data Matrix)).
Abbreviation method := (M Data Matrix).

(** ** Descriptions used in the proofs *)

(** What [_init] leaves untouched, and what it can log. *)
Record init_frame (params : Params) (this this' : node) (log : trace) : Prop := {
  init_children : _children this' = _children this;
  init_fixedParams : _fixedParams this' = _fixedParams this;
  init_getParams : _getParams this' = _getParams this;
  init_memoLevel : _memoLevel this' = _memoLevel this;
  init_objectCoords : _objectCoords this' = _objectCoords this;
  init_viewBox : _viewBox this' = _viewBox this;
  init_xmin : _xmin this' = or_zero (xmin params);
  init_ymin : _ymin this' = or_zero (ymin params);
  init_zmin : _zmin this' = or_zero (zmin params);
  init_xmax : _xmax this' = or_zero (xmax params);
  init_ymax : _ymax this' = or_zero (ymax params);
  init_zmax : _zmax this' = or_zero (zmax params);
  init_log : Forall (fun ev => exists e, ev = FatalError e) log
}.

(** The state the first block leaves once the parameters are in place. *)
Definition after_level0 (e : env) (this : node) : node :=
  if identity (getTransform e)
  then set_memoLevel (Some 2) (set_viewBox (Some (viewBox_of this)) this)
  else set_objectCoords (Some (objectCoords_of this)) this.

(** The state the second block leaves when it runs. *)
Definition after_level1 (e : env) (this : node) : node :=
  let this1 :=
    set_viewBox
      (Some (fromPoints (transformPoints3 (matrix (getTransform e))
                                          (_objectCoords this)))) this in
  if fixed (getTransform e) && js_eq (_memoLevel this) 1 && negb (instancing e)
  then set_memoLevel (Some 2) (set_objectCoords None this1)
  else this1.

(** The first two blocks log only recomputations. *)
Definition cache_log (log : trace) : Prop :=
  Forall (fun ev => recomputes ev = true) log.

(** The states [_render] is written for: the memo level is not yet set or
    one of 0, 1, 2, and at level 1 the corner points are in place. *)
Definition well_formed (this : node) : Prop :=
  _memoLevel this = None \/ _memoLevel this = Some 0 \/
  _memoLevel this = Some 2 \/
  (_memoLevel this = Some 1 /\ _objectCoords this <> None).

Notation "'let!' x ':=' m 'in' k" := (bind m (fun x => k))
  (at level 10, x name, m at level 100, k at level 200).
Notation "m >> k" := (bind m (fun _ => k))
  (at level 100, k at level 200, right associativity).

(** The six extents of a node, in the order of [getBoundary]. *)
Definition extents_of (this : node) : Z * Z * Z * Z * Z * Z :=
  (_xmin this, _ymin this, _zmin this, _xmax this, _ymax this, _zmax this).

(** The six extents a parameter object stands for. *)
Definition extents_in (o : Params) : Z * Z * Z * Z * Z * Z :=
  (or_zero (xmin o), or_zero (ymin o), or_zero (zmin o),
   or_zero (xmax o), or_zero (ymax o), or_zero (zmax o)).

(** What a client can do to a node between and during scene updates. *)
Inductive operation : Type :=
  | SetXMin (v : Z) | SetYMin (v : Z) | SetZMin (v : Z)
  | SetXMax (v : Z) | SetYMax (v : Z) | SetZMax (v : Z)
  | SetBoundary (boundary : Params)
  | Render (e : env).

Definition is_setter (o : operation) : bool :=
  match o with Render _ => false | _ => true end.

Definition perform (o : operation) : method unit :=
  match o with
  | SetXMin v => setXMin v
  | SetYMin v => setYMin v
  | SetZMin v => setZMin v
  | SetXMax v => setXMax v
  | SetYMax v => setYMax v
  | SetZMax v => setZMax v
  | SetBoundary boundary => setBoundary boundary
  | Render e => _render transformPoints3 fromPoints e
  end.

Fixpoint perform_all (ops : list operation) : method unit :=
  match ops with
  | [] => ret tt
  | o :: rest => perform o >> perform_all rest
  end.

(** A visibility query on a box. *)
Definition is_query (ev : event Data Matrix) : bool :=
  match queried_box ev with Some _ => true | None => false end.

(** A call that reads the parameters. *)
Definition reads_params (ev : event Data Matrix) : bool :=
  match ev with GetParams _ => true | _ => false end.

(** ** The monad *)

Lemma bind_assoc {A B C} (m : method A) (f : A -> method B) (g : B -> method C)
    (this : node) :
  bind (bind m f) g this = bind m (fun a => bind (f a) g) this.
Proof.
  unfold bind.
  destruct (m this) as [[[a | e] this1] l1]; [| reflexivity].
  destruct (f a this1) as [[[b | e] this2] l2]; [| reflexivity].
  destruct (g b this2) as [[r this3] l3].
  now rewrite app_assoc.
Qed.

(** ** [_init] *)

(** The ordering loop either runs to its end over ordered neighbours or
    stops at the first pair that is out of order. *)
Lemma ascending_loop_cases (ls : list Z) (n i : nat) (this : node) :
  (ascending_loop ls i n this = (Normal tt, this, [] : trace) /\
   forall j, (i <= j < i + n)%nat -> js_ge (ls !! (j - 1)%nat) (ls !! j) = false)
  \/
  (ascending_loop ls i n this = (Abrupt ConfigOrder, this, [FatalError ConfigOrder] : trace) /\
   exists j, (i <= j < i + n)%nat /\ js_ge (ls !! (j - 1)%nat) (ls !! j) = true).
Proof.
  revert i. induction n as [| n IH]; intros i.
  - left. split; [reflexivity | intros j Hj; lia].
  - cbn [ascending_loop]. unfold bind at 1.
    destruct (js_ge (ls !! (i - 1)%nat) (ls !! i)) eqn:Hge.
    + right. split; [reflexivity |]. exists i. split; [lia | exact Hge].
    + cbn. destruct (IH (S i)) as [[Heq Hall] | [Heq (j & Hj & Hbad)]].
      * left. rewrite Heq. split; [reflexivity |].
        intros j Hj. destruct (decide (j = i)) as [-> | Hne]; [exact Hge |].
        apply Hall. lia.
      * right. rewrite Heq. split; [reflexivity |].
        exists j. split; [lia | exact Hbad].
Qed.

Lemma js_ge_true (a b : option Z) :
  js_ge a b = true <-> exists x y, a = Some x /\ b = Some y /\ x >= y.
Proof.
  unfold js_ge. split.
  - destruct a as [x |], b as [y |]; try discriminate.
    intros H. exists x, y. repeat split. apply Z.geb_le in H. lia.
  - intros (x & y & -> & -> & H). apply Z.geb_le. lia.
Qed.

(** The loop of [_init] visits exactly the adjacent pairs of the list. *)
Lemma ascending_loop_ordered (ls : list Z) (this : node) :
  strictly_ascending ls ->
  ascending_loop ls 1 (length ls - 1) this = (Normal tt, this, [] : trace).
Proof.
  intros Hasc.
  destruct (ascending_loop_cases ls (length ls - 1) 1 this)
    as [[Heq _] | [_ (j & Hj & Hbad)]]; [exact Heq |].
  apply js_ge_true in Hbad as (x & y & Hx & Hy & Hxy).
  specialize (Hasc j x y ltac:(lia) Hx Hy). lia.
Qed.

Lemma ascending_loop_unordered (ls : list Z) (this : node) :
  unordered_pair ls ->
  ascending_loop ls 1 (length ls - 1) this
  = (Abrupt ConfigOrder, this, [FatalError ConfigOrder] : trace).
Proof.
  intros (i & a & b & Hi & Ha & Hb & Hab).
  destruct (ascending_loop_cases ls (length ls - 1) 1 this)
    as [[_ Hall] | [Heq _]]; [| exact Heq].
  assert (Hlt : (i < length ls)%nat) by (eapply lookup_lt_Some; exact Hb).
  specialize (Hall i ltac:(lia)).
  assert (Hge : js_ge (ls !! (i - 1)%nat) (ls !! i) = true)
    by (apply js_ge_true; eauto 6).
  congruence.
Qed.

(** [_init] stores the six extents first, whatever happens afterwards. *)
Lemma _init_no_levels (params : Params) (this : node) :
  levels params = None ->
  _init params this = (Normal tt, assign_extents params this, [] : trace).
Proof. intros H. unfold _init, bind, modify. rewrite H. reflexivity. Qed.

Lemma _init_mismatch (params : Params) (ls : list Z) (this : node) :
  levels params = Some ls ->
  length ls <> _children this ->
  _init params this
  = (Abrupt ConfigMismatch, assign_extents params this,
     [FatalError ConfigMismatch] : trace).
Proof.
  intros H Hlen. unfold _init, bind, modify, get. rewrite H. cbn.
  destruct (Nat.eqb_spec (length ls) (_children this)); [contradiction |].
  reflexivity.
Qed.

Lemma _init_unordered (params : Params) (ls : list Z) (this : node) :
  levels params = Some ls ->
  length ls = _children this ->
  unordered_pair ls ->
  _init params this
  = (Abrupt ConfigOrder, assign_extents params this,
     [FatalError ConfigOrder] : trace).
Proof.
  intros H Hlen Hbad. unfold _init, bind, modify, get. rewrite H. cbn.
  destruct (Nat.eqb_spec (length ls) (_children this)); [| contradiction].
  cbn. rewrite (ascending_loop_unordered ls _ Hbad). reflexivity.
Qed.

Lemma _init_ascending (params : Params) (ls : list Z) (this : node) :
  levels params = Some ls ->
  length ls = _children this ->
  strictly_ascending ls ->
  _init params this
  = (Normal tt, set_levels (Some ls) (assign_extents params this), [] : trace).
Proof.
  intros H Hlen Hasc. unfold _init, bind, modify, get. rewrite H. cbn.
  destruct (Nat.eqb_spec (length ls) (_children this)); [| contradiction].
  cbn. rewrite (ascending_loop_ordered ls _ Hasc). reflexivity.
Qed.

Lemma ascending_or_unordered (ls : list Z) (this : node) :
  strictly_ascending ls \/ unordered_pair ls.
Proof.
  destruct (ascending_loop_cases ls (length ls - 1) 1 this)
    as [[_ Hall] | [_ (j & Hj & Hbad)]].
  - left. intros i a b Hi Ha Hb.
    assert (Hlt : (i < length ls)%nat) by (eapply lookup_lt_Some; exact Hb).
    specialize (Hall i ltac:(lia)). rewrite Ha, Hb in Hall. cbn in Hall.
    rewrite Z.geb_leb in Hall. apply Z.leb_gt in Hall. lia.
  - right. apply js_ge_true in Hbad as (x & y & Hx & Hy & Hxy).
    exists j, x, y. repeat split; try assumption; lia.
Qed.

Lemma _init_frame (params : Params) (this : node) :
  exists r this' log,
    _init params this = (r, this', log) /\
    init_frame params this this' log /\
    (match r with
     | Normal _ => log = [] /\
                   _levels this' = match levels params with
                                   | Some ls => Some ls
                                   | None => _levels this
                                   end
     | Abrupt e => log = [FatalError e] /\ _levels this' = _levels this
     end).
Proof.
  destruct (levels params) as [ls |] eqn:Hls.
  - destruct (decide (length ls = _children this)) as [Hlen | Hlen].
    + destruct (ascending_or_unordered ls this) as [Hasc | Hbad].
      * rewrite (_init_ascending _ _ _ Hls Hlen Hasc).
        eexists _, _, _. split; [reflexivity |].
        split; [constructor; auto | auto].
      * rewrite (_init_unordered _ _ _ Hls Hlen Hbad).
        eexists _, _, _. split; [reflexivity |].
        split; [constructor; eauto | auto].
    + rewrite (_init_mismatch _ _ _ Hls Hlen).
      eexists _, _, _. split; [reflexivity |].
      split; [constructor; eauto | auto].
  - rewrite (_init_no_levels _ _ Hls).
    eexists _, _, _. split; [reflexivity |].
    split; [constructor; auto | auto].
Qed.

(** ** The LOD loop *)

Lemma js_le_true (a : option Z) (size : Z) :
  js_le a size = true <-> exists l, a = Some l /\ l <= size.
Proof.
  unfold js_le. split.
  - destruct a as [l |]; [| discriminate].
    intros H. exists l. split; [reflexivity | now apply Z.leb_le].
  - intros (l & -> & H). now apply Z.leb_le.
Qed.

(** Scanning down from index [k - 1], the loop renders the first index whose
    threshold is at most [size], and nothing if there is none below [k]. *)
Lemma lod_loop_spec (ls : list Z) (size : Z) (k : nat) (this : node) :
  (exists i, (i < k)%nat /\
     lod_loop ls size k this = (Normal tt, this, [RenderNode i] : trace) /\
     (exists l, ls !! i = Some l /\ l <= size) /\
     forall j l, (i < j < k)%nat -> ls !! j = Some l -> size < l)
  \/
  (lod_loop ls size k this = (Normal tt, this, [] : trace) /\
   forall j l, (j < k)%nat -> ls !! j = Some l -> size < l).
Proof.
  induction k as [| k IH].
  - right. split; [reflexivity | intros j l Hj; lia].
  - cbn [lod_loop]. destruct (js_le (ls !! k) size) eqn:Hle.
    + left. exists k. split; [lia |]. split; [reflexivity |].
      split; [now apply js_le_true | intros j l Hj; lia].
    + assert (Hk : forall l, ls !! k = Some l -> size < l).
      { intros l Hl. rewrite Hl in Hle. cbn in Hle.
        apply Z.leb_gt in Hle. exact Hle. }
      destruct IH as [(i & Hi & Heq & Hsel & Habove) | [Heq Hnone]].
      * left. exists i. split; [lia |]. split; [exact Heq |].
        split; [exact Hsel |]. intros j l Hj Hl.
        destruct (decide (j = k)) as [-> | Hne]; [now apply Hk |].
        apply (Habove j l); [lia | exact Hl].
      * right. split; [exact Heq |]. intros j l Hj Hl.
        destruct (decide (j = k)) as [-> | Hne]; [now apply Hk |].
        apply (Hnone j l); [lia | exact Hl].
Qed.

(** ** The three blocks of [_render] *)

Lemma render_level0_skip (e : env) (this : node) :
  js_eq (_memoLevel this) 0 = false ->
  render_level0 e this = (Normal tt, this, [] : trace).
Proof. intros H. unfold render_level0, bind, get. cbn. now rewrite H. Qed.

Lemma render_level0_fixed (e : env) (this : node) :
  js_eq (_memoLevel this) 0 = true ->
  _fixedParams this = true ->
  render_level0 e this
  = (Normal tt, after_level0 e (set_memoLevel (Some 1) this), [] : trace).
Proof.
  intros H Hfix. unfold render_level0, after_level0, bind, get, modify. cbn.
  rewrite H, Hfix. cbn. now destruct (identity (getTransform e)).
Qed.

Local Arguments _init : simpl never.

Lemma render_level0_dynamic (e : env) (this : node) :
  js_eq (_memoLevel this) 0 = true ->
  _fixedParams this = false ->
  render_level0 e this
  = match _init (Matrix:=Matrix) (_getParams this (Some (data e))) this with
    | (Normal _, this1, l) =>
        (Normal tt, after_level0 e this1, GetParams (Some (data e)) :: l)
    | (Abrupt ex, this1, l) =>
        (Abrupt ex, this1, GetParams (Some (data e)) :: l)
    end.
Proof.
  intros H Hdyn. unfold render_level0, after_level0, bind, get, modify, call. cbn.
  rewrite H, Hdyn. cbn.
  destruct (_init (Matrix:=Matrix) (_getParams this (Some (data e))) this) as [[[[] | ex] this1] l];
    [| reflexivity].
  cbn. destruct (identity (getTransform e)); cbn; now rewrite app_nil_r.
Qed.

Lemma render_level1_skip (e : env) (this : node) :
  js_lt (_memoLevel this) 2 = false ->
  render_level1 transformPoints3 fromPoints e this = (Normal tt, this, [] : trace).
Proof. intros H. unfold render_level1, bind, get. cbn. now rewrite H. Qed.

Lemma render_level1_run (e : env) (this : node) :
  js_lt (_memoLevel this) 2 = true ->
  render_level1 transformPoints3 fromPoints e this
  = (Normal tt, after_level1 e this,
     [TransformPoints3 (matrix (getTransform e)) (_objectCoords this)] : trace).
Proof.
  intros H. unfold render_level1, after_level1, bind, get, modify, call. cbn.
  rewrite H. cbn.
  now destruct (fixed (getTransform e) && js_eq (_memoLevel this) 1
                && negb (instancing e)).
Qed.

(** The third block never changes the node and never fails. *)
Lemma render_visible_outside (e : env) (this : node) :
  testAxisBoxIntersectOuterRadius e (_viewBox this) = false ->
  render_visible e this
  = (Normal tt, this, [OuterRadiusTest (_viewBox this)] : trace).
Proof.
  intros H. unfold render_visible, bind, get, call. cbn. rewrite H. reflexivity.
Qed.

Lemma render_visible_staging (e : env) (this : node) :
  testAxisBoxIntersectOuterRadius e (_viewBox this) = true ->
  testAxisBoxIntersectInnerRadius e (_viewBox this) = false ->
  render_visible e this
  = (Normal tt, this,
     [OuterRadiusTest (_viewBox this); InnerRadiusTest (_viewBox this);
      RenderNodes] : trace).
Proof.
  intros Ho Hi. unfold render_visible, bind, get, call. cbn.
  rewrite Ho. cbn. rewrite Hi. reflexivity.
Qed.

Lemma render_visible_culled (e : env) (this : node) :
  testAxisBoxIntersectOuterRadius e (_viewBox this) = true ->
  testAxisBoxIntersectInnerRadius e (_viewBox this) = true ->
  testAxisBoxIntersection e (_viewBox this) = SceneJS_math_OUTSIDE_FRUSTUM ->
  render_visible e this
  = (Normal tt, this,
     [OuterRadiusTest (_viewBox this); InnerRadiusTest (_viewBox this);
      FrustumTest (_viewBox this)] : trace).
Proof.
  intros Ho Hi Hf. unfold render_visible, bind, get, call. cbn.
  rewrite Ho. cbn. rewrite Hi. cbn. rewrite Hf. reflexivity.
Qed.

Lemma render_visible_all (e : env) (this : node) :
  testAxisBoxIntersectOuterRadius e (_viewBox this) = true ->
  testAxisBoxIntersectInnerRadius e (_viewBox this) = true ->
  testAxisBoxIntersection e (_viewBox this) <> SceneJS_math_OUTSIDE_FRUSTUM ->
  _levels this = None ->
  render_visible e this
  = (Normal tt, this,
     [OuterRadiusTest (_viewBox this); InnerRadiusTest (_viewBox this);
      FrustumTest (_viewBox this); RenderNodes] : trace).
Proof.
  intros Ho Hi Hf Hl. unfold render_visible, bind, get, call. cbn.
  rewrite Ho. cbn. rewrite Hi. cbn. rewrite Hl.
  now destruct (testAxisBoxIntersection e (_viewBox this)).
Qed.

Lemma render_visible_lod (e : env) (this : node) (ls : list Z) :
  testAxisBoxIntersectOuterRadius e (_viewBox this) = true ->
  testAxisBoxIntersectInnerRadius e (_viewBox this) = true ->
  testAxisBoxIntersection e (_viewBox this) <> SceneJS_math_OUTSIDE_FRUSTUM ->
  _levels this = Some ls ->
  render_visible e this
  = (Normal tt, this,
     [OuterRadiusTest (_viewBox this); InnerRadiusTest (_viewBox this);
      FrustumTest (_viewBox this); ProjectedSize (_viewBox this)]
     ++ snd (lod_loop (Matrix:=Matrix) ls
               (getProjectedSize e (_viewBox this)) (length ls) this)).
Proof.
  intros Ho Hi Hf Hl. unfold render_visible, bind, get, call. cbn.
  rewrite Ho. cbn. rewrite Hi. cbn. rewrite Hl.
  destruct (lod_loop_spec ls (getProjectedSize e (_viewBox this)) (length ls) this)
    as [(i & _ & Heq & _) | [Heq _]];
    destruct (testAxisBoxIntersection e (_viewBox this));
    try contradiction; cbn; rewrite Heq; reflexivity.
Qed.

(** Every query of the third block is made on [this._viewBox]; the block
    makes no call that recomputes geometry. *)
Lemma render_visible_frame (e : env) (this : node) :
  exists log : trace,
    render_visible e this = (Normal tt, this, log) /\
    Forall (fun ev => recomputes ev = false /\
                      forall b, queried_box ev = Some b -> b = _viewBox this) log.
Proof.
  destruct (testAxisBoxIntersectOuterRadius e (_viewBox this)) eqn:Ho.
  2:{ rewrite (render_visible_outside _ _ Ho). eexists; split; [reflexivity |].
      repeat constructor. cbn. congruence. }
  destruct (testAxisBoxIntersectInnerRadius e (_viewBox this)) eqn:Hi.
  2:{ rewrite (render_visible_staging _ _ Ho Hi). eexists; split; [reflexivity |].
      repeat constructor; cbn; congruence. }
  destruct (decide (testAxisBoxIntersection e (_viewBox this)
                    = SceneJS_math_OUTSIDE_FRUSTUM)) as [Hf | Hf].
  { rewrite (render_visible_culled _ _ Ho Hi Hf). eexists; split; [reflexivity |].
    repeat constructor; cbn; congruence. }
  destruct (_levels this) as [ls |] eqn:Hl.
  2:{ rewrite (render_visible_all _ _ Ho Hi Hf Hl). eexists; split; [reflexivity |].
      repeat constructor; cbn; congruence. }
  rewrite (render_visible_lod _ _ _ Ho Hi Hf Hl). eexists; split; [reflexivity |].
  destruct (lod_loop_spec ls (getProjectedSize e (_viewBox this)) (length ls) this)
    as [(i & _ & Heq & _) | [Heq _]]; rewrite Heq; cbn;
    repeat constructor; cbn; congruence.
Qed.

(** ** [_render] as a whole *)

Lemma cache_log_traversed (n : nat) (log : trace) :
  cache_log log -> traversed n log = [].
Proof.
  unfold traversed. induction 1 as [| ev log Hev _ IH]; [reflexivity |].
  cbn. rewrite IH. now destruct ev.
Qed.

Lemma render_level0_log (e : env) (this : node) :
  cache_log (snd (render_level0 e this)).
Proof.
  destruct (js_eq (_memoLevel this) 0) eqn:H0.
  2:{ rewrite (render_level0_skip _ _ H0). constructor. }
  destruct (_fixedParams this) eqn:Hfix.
  { rewrite (render_level0_fixed _ _ H0 Hfix). constructor. }
  rewrite (render_level0_dynamic _ _ H0 Hfix).
  destruct (_init_frame (_getParams this (Some (data e))) this)
    as (r & this1 & l & Heq & Hframe & _).
  rewrite Heq.
  assert (Hl : cache_log l).
  { eapply Forall_impl; [apply (init_log _ _ _ _ Hframe) |].
    intros ev [ex ->]. reflexivity. }
  destruct r; cbn; constructor; auto.
Qed.

Lemma render_level1_log (e : env) (this : node) :
  exists this1 log,
    render_level1 transformPoints3 fromPoints e this = (Normal tt, this1, log) /\
    cache_log log.
Proof.
  destruct (js_lt (_memoLevel this) 2) eqn:H.
  - rewrite (render_level1_run _ _ H). eexists _, _. split; [reflexivity |].
    repeat constructor.
  - rewrite (render_level1_skip _ _ H). eexists _, _. split; [reflexivity |].
    constructor.
Qed.

(** A traversal is aborted by [_init], or runs the three blocks in turn. *)
Lemma _render_cases (e : env) (this : node) :
  (exists ex this1 l0,
     render_level0 e this = (Abrupt ex, this1, l0) /\
     _render transformPoints3 fromPoints e this = (Abrupt ex, this1, l0) /\
     cache_log l0)
  \/
  (exists this1 this2 l0 l1 lv,
     render_level0 e this = (Normal tt, this1, l0) /\
     render_level1 transformPoints3 fromPoints e this1 = (Normal tt, this2, l1) /\
     render_visible e this2 = (Normal tt, this2, lv) /\
     _render transformPoints3 fromPoints e this
     = (Normal tt, this2, l0 ++ l1 ++ lv) /\
     cache_log (l0 ++ l1)).
Proof.
  pose proof (render_level0_log e this) as Hl0.
  destruct (render_level0 e this) as [[[[] | ex] this1] l0] eqn:H0; cbn in Hl0.
  - right.
    destruct (render_level1_log e this1) as (this2 & l1 & H1 & Hl1).
    destruct (render_visible_frame e this2) as (lv & Hv & _).
    exists this1, this2, l0, l1, lv.
    unfold _render, bind. rewrite H0, H1, Hv.
    repeat split; try reflexivity. now apply Forall_app.
  - left. exists ex, this1, l0. unfold _render, bind. rewrite H0.
    repeat split; assumption.
Qed.

Lemma cache_log_dispatches (log : trace) :
  cache_log log -> Forall (fun ev => dispatches ev = false) log.
Proof.
  intros H. eapply Forall_impl; [exact H |].
  intros ev Hev. now destruct ev.
Qed.

Lemma cache_log_filter (log : trace) :
  cache_log log -> filter (fun ev => dispatches ev = true) log = [].
Proof.
  intros H. apply cache_log_dispatches in H.
  induction H as [| ev l Hev _ IH]; [reflexivity |].
  rewrite filter_cons, decide_False by congruence. exact IH.
Qed.

Lemma cache_log_no_query (log : trace) (ev : event Data Matrix) :
  cache_log log -> In ev log -> queried_box ev = None.
Proof.
  intros H Hin. unfold cache_log in H. rewrite Forall_forall in H.
  apply list_elem_of_In, H in Hin. now destruct ev.
Qed.

Lemma traversed_app (n : nat) (l1 l2 : trace) :
  traversed n (l1 ++ l2) = traversed n l1 ++ traversed n l2.
Proof. unfold traversed. apply flat_map_app. Qed.

(** A traversal that completes splits into the recomputation log of the
    first two blocks and the log of the third block on the final node. *)
Lemma _render_normal (e : env) (this this' : node) (log : trace) :
  _render transformPoints3 fromPoints e this = (Normal tt, this', log) ->
  exists l01 lv,
    log = l01 ++ lv /\ cache_log l01 /\
    render_visible e this' = (Normal tt, this', lv).
Proof.
  intros H.
  destruct (_render_cases e this)
    as [(ex & this1 & l0 & _ & Heq & _)
       | (this1 & this2 & l0 & l1 & lv & _ & _ & Hv & Heq & Hl)];
    rewrite Heq in H; [discriminate |].
  injection H as <- <-. exists (l0 ++ l1), lv.
  split; [now rewrite app_assoc | split; assumption].
Qed.

Lemma _render_abrupt (e : env) (this this' : node) (ex : exception) (log : trace) :
  _render transformPoints3 fromPoints e this = (Abrupt ex, this', log) ->
  cache_log log.
Proof.
  intros H.
  destruct (_render_cases e this)
    as [(ex' & this1 & l0 & _ & Heq & Hl)
       | (this1 & this2 & l0 & l1 & lv & _ & _ & _ & Heq & _)];
    rewrite Heq in H; [| discriminate].
  now injection H as _ _ <-.
Qed.

(** ** Dispatch *)

(** C1. With thresholds configured and the box inside or intersecting the
    frustum (so inside both radii), [_render] traverses exactly the child at
    the largest index [i] with [levels[i] <= size], and no child when the
    size is below every threshold.  For levels 10, 200, 400, 600 the loop
    picks index 1 at size 250, nothing at size 5 and index 3 at size 600. *)
Theorem C1_lod_selects_largest_level_below :
  (forall (e : env) (this this' : node) (log : trace) (ls : list Z),
     _render transformPoints3 fromPoints e this = (Normal tt, this', log) ->
     _levels this' = Some ls ->
     testAxisBoxIntersectOuterRadius e (_viewBox this') = true ->
     testAxisBoxIntersectInnerRadius e (_viewBox this') = true ->
     testAxisBoxIntersection e (_viewBox this') <> SceneJS_math_OUTSIDE_FRUSTUM ->
     let size := getProjectedSize e (_viewBox this') in
     (exists i, largest_level_below ls size i /\
                filter (fun ev => dispatches ev = true) log = [RenderNode i] /\
                traversed (_children this') log = [i])
     \/
     ((forall j l, ls !! j = Some l -> size < l) /\
      filter (fun ev => dispatches ev = true) log = [] /\
      traversed (_children this') log = []))
  /\
  (forall this : node,
     snd (lod_loop [10; 200; 400; 600] 250 4 this) = ([RenderNode 1] : trace)) /\
  (forall this : node,
     snd (lod_loop [10; 200; 400; 600] 5 4 this) = ([] : trace)) /\
  (forall this : node,
     snd (lod_loop [10; 200; 400; 600] 600 4 this) = ([RenderNode 3] : trace)).
Proof.
  split; [| repeat split; reflexivity].
  intros e this this' log ls Hrun Hls Ho Hi Hf size.
  destruct (_render_normal _ _ _ _ Hrun) as (l01 & lv & -> & Hl01 & Hv).
  rewrite (render_visible_lod _ _ _ Ho Hi Hf Hls) in Hv.
  injection Hv as <-.
  rewrite filter_app, (cache_log_filter _ Hl01), traversed_app,
    (cache_log_traversed _ _ Hl01).
  fold size.
  destruct (lod_loop_spec ls size (length ls) this')
    as [(i & Hi' & Heq & Hsel & Habove) | [Heq Hbelow]]; rewrite Heq; cbn.
  - left. exists i. split; [| split; reflexivity].
    split; [exact Hsel |]. intros j l Hj Hl. apply (Habove j l); [| exact Hl].
    split; [exact Hj | eapply lookup_lt_Some; exact Hl].
  - right. split; [| split; reflexivity].
    intros j l Hl. apply (Hbelow j l); [| exact Hl].
    eapply lookup_lt_Some; exact Hl.
Qed.

(** C7. When the current box misses the outer radius no child is traversed,
    whatever the inner-radius test, the frustum test and the thresholds
    would have answered; these are not even consulted. *)
Theorem C7_outer_radius_miss_skips_subtree
    (e : env) (this this' : node) (r : completion unit) (log : trace) :
  _render transformPoints3 fromPoints e this = (r, this', log) ->
  testAxisBoxIntersectOuterRadius e (_viewBox this') = false ->
  Forall (fun ev => dispatches ev = false) log /\
  traversed (_children this') log = [] /\
  forall b, ~ In (InnerRadiusTest b) log /\ ~ In (FrustumTest b) log /\
            ~ In (ProjectedSize b) log.
Proof.
  intros Hrun Ho.
  assert (Hcache : forall l : trace, cache_log l ->
            forall b, ~ In (InnerRadiusTest b) l /\ ~ In (FrustumTest b) l /\
                      ~ In (ProjectedSize b) l).
  { intros l Hl b.
    repeat split; intros Hin; apply (cache_log_no_query _ _ Hl) in Hin;
      discriminate. }
  destruct r as [[] | ex].
  - destruct (_render_normal _ _ _ _ Hrun) as (l01 & lv & -> & Hl01 & Hv).
    rewrite (render_visible_outside _ _ Ho) in Hv. injection Hv as <-.
    split; [| split].
    + apply Forall_app. split; [now apply cache_log_dispatches |].
      repeat constructor.
    + now rewrite traversed_app, (cache_log_traversed _ _ Hl01).
    + intros b. destruct (Hcache _ Hl01 b) as (H1 & H2 & H3).
      repeat split; intros Hin; apply in_app_or in Hin as [Hin | Hin];
        try tauto; cbn in Hin; destruct Hin as [Hin | []]; discriminate.
  - pose proof (_render_abrupt _ _ _ _ _ Hrun) as Hl.
    split; [now apply cache_log_dispatches |].
    split; [now apply cache_log_traversed | now apply Hcache].
Qed.

(** C8. When the current box meets the outer radius but not the inner one,
    all children are traversed, in order; neither the frustum nor the
    projected size is consulted, so neither an OUTSIDE classification nor
    configured thresholds change the outcome. *)
Theorem C8_staging_traverses_all_children
    (e : env) (this this' : node) (log : trace) :
  _render transformPoints3 fromPoints e this = (Normal tt, this', log) ->
  testAxisBoxIntersectOuterRadius e (_viewBox this') = true ->
  testAxisBoxIntersectInnerRadius e (_viewBox this') = false ->
  filter (fun ev => dispatches ev = true) log = [RenderNodes] /\
  traversed (_children this') log = seq 0 (_children this') /\
  forall b, ~ In (FrustumTest b) log /\ ~ In (ProjectedSize b) log.
Proof.
  intros Hrun Ho Hi.
  destruct (_render_normal _ _ _ _ Hrun) as (l01 & lv & -> & Hl01 & Hv).
  rewrite (render_visible_staging _ _ Ho Hi) in Hv. injection Hv as <-.
  split; [| split].
  - rewrite filter_app, (cache_log_filter _ Hl01). reflexivity.
  - rewrite traversed_app, (cache_log_traversed _ _ Hl01). cbn.
    now rewrite app_nil_r.
  - intros b. split; intros Hin; apply in_app_or in Hin as [Hin | Hin];
      try (apply (cache_log_no_query _ _ Hl01) in Hin; discriminate);
      cbn in Hin; intuition discriminate.
Qed.

(** ** Reachable states *)

Lemma js_eq_true (v : option Z) (k : Z) : js_eq v k = true <-> v = Some k.
Proof.
  unfold js_eq. destruct v as [z |]; [| split; discriminate].
  rewrite Z.eqb_eq. split; congruence.
Qed.

Lemma render_level0_well_formed
    (e : env) (this this1 : node) (r : completion unit) (l0 : trace) :
  well_formed this ->
  render_level0 e this = (r, this1, l0) ->
  well_formed this1 /\
  (r = Normal tt -> js_lt (_memoLevel this1) 2 = true ->
   _objectCoords this1 <> None) /\
  forall m c, ~ In (TransformPoints3 m c) l0.
Proof.
  intros Hwf Hr0.
  destruct (js_eq (_memoLevel this) 0) eqn:Hz.
  2:{ rewrite (render_level0_skip _ _ Hz) in Hr0. injection Hr0 as <- <- <-.
      split; [exact Hwf |]. split; [| intros m c []].
      intros _ Hlt. destruct Hwf as [Hm | [Hm | [Hm | [Hm Hc]]]];
        try exact Hc; rewrite Hm in Hz, Hlt; discriminate. }
  destruct (_fixedParams this) eqn:Hfix.
  { rewrite (render_level0_fixed _ _ Hz Hfix) in Hr0. injection Hr0 as <- <- <-.
    unfold after_level0, well_formed.
    destruct (identity (getTransform e)); cbn;
      (split; [| split; [| intros m c []]]);
      try discriminate; intuition discriminate. }
  rewrite (render_level0_dynamic _ _ Hz Hfix) in Hr0.
  destruct (_init_frame (_getParams this (Some (data e))) this)
    as (ri & thisi & li & Heqi & Hframe & _).
  rewrite Heqi in Hr0. apply js_eq_true in Hz.
  assert (Hmi : _memoLevel thisi = Some 0)
    by now rewrite (init_memoLevel _ _ _ _ Hframe).
  assert (Hli : forall m c, ~ In (TransformPoints3 m c)
                              (GetParams (Some (data e)) :: li)).
  { intros m c [Hin | Hin]; [discriminate |].
    pose proof (init_log _ _ _ _ Hframe) as Hlog.
    rewrite Forall_forall in Hlog.
    apply list_elem_of_In, Hlog in Hin as [ex Hin]. discriminate. }
  destruct ri as [[] | ex]; injection Hr0 as <- <- <-.
  - unfold after_level0, well_formed.
    destruct (identity (getTransform e)); cbn; rewrite ?Hmi;
      (split; [| split; [| exact Hli]]);
      try discriminate; intuition discriminate.
  - split; [right; left; exact Hmi |]. split; [discriminate | exact Hli].
Qed.

(** [_render] keeps the node well formed, and the corner points it hands
    to [SceneJS_math_transformPoints3] are never [undefined] or [null]. *)
Lemma _render_well_formed
    (e : env) (this this' : node) (r : completion unit) (log : trace) :
  well_formed this ->
  _render transformPoints3 fromPoints e this = (r, this', log) ->
  well_formed this' /\
  forall m c, In (TransformPoints3 m c) log -> c <> None.
Proof.
  intros Hwf Hrun.
  destruct (_render_cases e this)
    as [(ex & this1 & l0 & Hr0 & Heq & _)
       | (this1 & this2 & l0 & l1 & lv & Hr0 & Hr1 & Hv & Heq & _)];
    rewrite Heq in Hrun; injection Hrun as <- <- <-;
    destruct (render_level0_well_formed _ _ _ _ _ Hwf Hr0) as (Hwf1 & Hc1 & Hl0).
  - split; [exact Hwf1 |]. intros m c Hin. now apply Hl0 in Hin.
  - destruct (render_visible_frame e this2) as (lv' & Hv' & Hlv).
    rewrite Hv in Hv'. injection Hv' as <-.
    assert (Hnv : forall m c, ~ In (TransformPoints3 m c) lv).
    { intros m c Hin. rewrite Forall_forall in Hlv.
      apply list_elem_of_In, Hlv in Hin as [Hin _]. discriminate. }
    destruct (js_lt (_memoLevel this1) 2) eqn:Hlt.
    + rewrite (render_level1_run _ _ Hlt) in Hr1. injection Hr1 as <- <-.
      split.
      * unfold after_level1, well_formed in *.
        destruct (fixed (getTransform e) && js_eq (_memoLevel this1) 1
                  && negb (instancing e)); cbn; [intuition |].
        exact Hwf1.
      * intros m c Hin.
        apply in_app_or in Hin as [Hin | Hin]; [now apply Hl0 in Hin |].
        apply in_app_or in Hin as [[Hin | []] | Hin]; [| now apply Hnv in Hin].
        injection Hin as _ <-. now apply Hc1.
    + rewrite (render_level1_skip _ _ Hlt) in Hr1. injection Hr1 as <- <-.
      split; [exact Hwf1 |]. intros m c Hin.
      apply in_app_or in Hin as [Hin | Hin]; [now apply Hl0 in Hin |].
      now apply Hnv in Hin.
Qed.

(** ** Memoisation *)

(** At memo level 2 both guarded blocks are skipped. *)
Lemma _render_full (e : env) (this : node) :
  _memoLevel this = Some 2 ->
  exists log : trace,
    _render transformPoints3 fromPoints e this = (Normal tt, this, log) /\
    Forall (fun ev => recomputes ev = false /\
                      forall b, queried_box ev = Some b -> b = _viewBox this) log.
Proof.
  intros H2.
  destruct (render_visible_frame e this) as (lv & Hv & Hlv).
  exists lv. split; [| exact Hlv].
  unfold _render, bind.
  rewrite render_level0_skip by now rewrite H2.
  rewrite render_level1_skip by now rewrite H2.
  now rewrite Hv.
Qed.

(** C2. From memo level 2 on, any number of traversals leaves the node as it
    is, makes no call that re-reads the configuration or transforms points,
    and every visibility query is made on the box that was cached. *)
Theorem C2_full_state_reuses_cached_box (envs : list env) (this : node) :
  _memoLevel this = Some 2 ->
  exists log : trace,
    traversals transformPoints3 fromPoints envs this = (Normal tt, this, log) /\
    Forall (fun ev => recomputes ev = false /\
                      forall b, queried_box ev = Some b -> b = _viewBox this) log.
Proof.
  intros H2. induction envs as [| e envs IH].
  - exists []. split; [reflexivity | constructor].
  - destruct (_render_full e this H2) as (l1 & Hrun & Hl1).
    destruct IH as (l2 & Hrest & Hl2).
    exists (l1 ++ l2). split; [| now apply Forall_app].
    cbn [traversals]. unfold bind. now rewrite Hrun, Hrest.
Qed.

(** On the path with a model transform, level 2 is not entered while
    instancing is active. *)
Lemma instancing_guard_on_transform_path
    (e : env) (this this' : node) (r : completion unit) (log : trace) :
  _render transformPoints3 fromPoints e this = (r, this', log) ->
  instancing e = true ->
  identity (getTransform e) = false ->
  _memoLevel this <> Some 2 ->
  _memoLevel this' <> Some 2.
Proof.
  intros Hrun Hinst Hid Hne.
  assert (H0 : exists this1 l0 r0,
             render_level0 e this = (r0, this1, l0) /\ _memoLevel this1 <> Some 2).
  { destruct (js_eq (_memoLevel this) 0) eqn:Hz.
    2:{ rewrite (render_level0_skip _ _ Hz). eauto. }
    destruct (_fixedParams this) eqn:Hfix.
    { rewrite (render_level0_fixed _ _ Hz Hfix). unfold after_level0.
      rewrite Hid. eexists _, _, _. split; [reflexivity |]. cbn. congruence. }
    rewrite (render_level0_dynamic _ _ Hz Hfix).
    destruct (_init_frame (_getParams this (Some (data e))) this)
      as (ri & thisi & li & Heq & Hframe & _).
    rewrite Heq. unfold after_level0. rewrite Hid.
    destruct ri; eexists _, _, _; (split; [reflexivity |]); cbn;
      now rewrite (init_memoLevel _ _ _ _ Hframe). }
  destruct H0 as (this1 & l0 & r0 & Hr0 & Hm1).
  destruct (_render_cases e this)
    as [(ex & this1' & l0' & Hr0' & Heq & _)
       | (this1' & this2 & l0' & l1 & lv & Hr0' & Hr1 & _ & Heq & _)];
    rewrite Heq in Hrun; injection Hrun as <- <- <-;
    rewrite Hr0 in Hr0'; injection Hr0' as -> -> ->; [exact Hm1 |].
  destruct (js_lt (_memoLevel this1') 2) eqn:Hlt.
  - rewrite (render_level1_run _ _ Hlt) in Hr1. injection Hr1 as <- _.
    unfold after_level1. rewrite Hinst, !andb_false_r. exact Hm1.
  - rewrite (render_level1_skip _ _ Hlt) in Hr1. now injection Hr1 as <- _.
Qed.

(** On the path without a model transform the first block enters level 2
    with no reference to [instancing()] or to [_fixedParams]. *)
Lemma identity_path_enters_full
    (e : env) (this this' : node) (log : trace) :
  _render transformPoints3 fromPoints e this = (Normal tt, this', log) ->
  _memoLevel this = Some 0 ->
  identity (getTransform e) = true ->
  _memoLevel this' = Some 2 /\ _viewBox this' = Some (viewBox_of this').
Proof.
  intros Hrun H0 Hid.
  assert (Hz : js_eq (_memoLevel this) 0 = true) by now rewrite H0.
  destruct (_render_cases e this)
    as [(ex & this1 & l0 & _ & Heq & _)
       | (this1 & this2 & l0 & l1 & lv & Hr0 & Hr1 & _ & Heq & _)];
    rewrite Heq in Hrun; [discriminate |].
  injection Hrun as <- _.
  assert (H1 : _memoLevel this1 = Some 2 /\ _viewBox this1 = Some (viewBox_of this1)).
  { destruct (_fixedParams this) eqn:Hfix.
    - rewrite (render_level0_fixed _ _ Hz Hfix) in Hr0. injection Hr0 as <- _.
      unfold after_level0. rewrite Hid. split; reflexivity.
    - rewrite (render_level0_dynamic _ _ Hz Hfix) in Hr0.
      destruct (_init (Matrix:=Matrix) (_getParams this (Some (data e))) this)
        as [[[[] | ex] thisi] li]; [| discriminate].
      injection Hr0 as <- _. unfold after_level0. rewrite Hid.
      split; reflexivity. }
  destruct H1 as [Hm Hb].
  rewrite render_level1_skip in Hr1 by now rewrite Hm.
  injection Hr1 as <- _. split; assumption.
Qed.

(** A node with dynamic parameters under a model transform stays at level 0
    and reads its parameters again on the traversal. *)
Lemma dynamic_reread_on_transform_path
    (e : env) (this this' : node) (log : trace) :
  _render transformPoints3 fromPoints e this = (Normal tt, this', log) ->
  _memoLevel this = Some 0 ->
  _fixedParams this = false ->
  identity (getTransform e) = false ->
  In (GetParams (Some (data e))) log /\
  _memoLevel this' = Some 0 /\
  _fixedParams this' = false /\
  _getParams this' = _getParams this /\
  _xmin this' = or_zero (xmin (_getParams this (Some (data e)))) /\
  _ymin this' = or_zero (ymin (_getParams this (Some (data e)))) /\
  _zmin this' = or_zero (zmin (_getParams this (Some (data e)))) /\
  _xmax this' = or_zero (xmax (_getParams this (Some (data e)))) /\
  _ymax this' = or_zero (ymax (_getParams this (Some (data e)))) /\
  _zmax this' = or_zero (zmax (_getParams this (Some (data e)))).
Proof.
  intros Hrun H0 Hdyn Hid.
  assert (Hz : js_eq (_memoLevel this) 0 = true) by now rewrite H0.
  destruct (_render_cases e this)
    as [(ex & this1 & l0 & _ & Heq & _)
       | (this1 & this2 & l0 & l1 & lv & Hr0 & Hr1 & _ & Heq & _)];
    rewrite Heq in Hrun; [discriminate |].
  injection Hrun as <- <-.
  rewrite (render_level0_dynamic _ _ Hz Hdyn) in Hr0.
  destruct (_init_frame (_getParams this (Some (data e))) this)
    as (ri & thisi & li & Heqi & Hframe & _).
  rewrite Heqi in Hr0. destruct ri as [[] | ex]; [| discriminate].
  injection Hr0 as <- <-.
  destruct Hframe.
  assert (Hm1 : _memoLevel (after_level0 e thisi) = Some 0).
  { unfold after_level0. rewrite Hid. cbn. congruence. }
  rewrite render_level1_run in Hr1 by now rewrite Hm1.
  injection Hr1 as <- _.
  split; [now left |].
  unfold after_level1. rewrite Hm1. cbn. rewrite andb_false_r. cbn.
  unfold after_level0. rewrite Hid. cbn.
  repeat split; congruence.
Qed.

(** ** Accessors *)

(** C5. Each of the six extent setters and [setBoundary] sets the memo level
    to 0 whatever it was and whatever value is stored, and does nothing
    else besides storing the extents: no collaborator is called and the
    cached corner points and box are left as they are. *)
Theorem C5_setters_reset_memo_level (v : Z) (boundary : Params) :
  resets_memoLevel (setXMin v : method unit) /\
  resets_memoLevel (setYMin v : method unit) /\
  resets_memoLevel (setZMin v : method unit) /\
  resets_memoLevel (setXMax v : method unit) /\
  resets_memoLevel (setYMax v : method unit) /\
  resets_memoLevel (setZMax v : method unit) /\
  resets_memoLevel (setBoundary boundary : method unit).
Proof.
  repeat split; intros this; eexists; (split; [reflexivity |]);
    repeat split; reflexivity.
Qed.

(** The setters store the value they are given. *)
Lemma setters_store (v : Z) (this : node) :
  _xmin (snd (fst (setXMin (Matrix:=Matrix) v this))) = v /\
  _ymin (snd (fst (setYMin (Matrix:=Matrix) v this))) = v /\
  _zmin (snd (fst (setZMin (Matrix:=Matrix) v this))) = v /\
  _xmax (snd (fst (setXMax (Matrix:=Matrix) v this))) = v /\
  _ymax (snd (fst (setYMax (Matrix:=Matrix) v this))) = v /\
  _zmax (snd (fst (setZMax (Matrix:=Matrix) v this))) = v.
Proof. repeat split; reflexivity. Qed.

(** ** Configuration errors *)

Lemma ConfigMismatch_neq_ConfigOrder : ConfigMismatch <> ConfigOrder.
Proof. discriminate. Qed.

(** The constructor runs [_init] on the fixed parameters. *)
Lemma SceneJS_BoundingBox_fixed (base : Node Data) :
  node_fixedParams base = true ->
  SceneJS_BoundingBox base
  = match _init (Matrix:=Matrix) (node_getParams base None)
                (constructed_fields base) with
    | (r, this, l) => (r, this, GetParams None :: l)
    end.
Proof.
  intros Hfix. unfold SceneJS_BoundingBox, bind, get, call. cbn.
  rewrite Hfix.
  now destruct (_init (Matrix:=Matrix) (node_getParams base None)
                  (constructed_fields base)) as [[[[] | ex] this] l].
Qed.

Lemma SceneJS_BoundingBox_dynamic (base : Node Data) :
  node_fixedParams base = false ->
  SceneJS_BoundingBox base
  = (Normal tt, constructed_fields base, [] : trace).
Proof.
  intros Hfix. unfold SceneJS_BoundingBox, bind, get, call. cbn.
  now rewrite Hfix.
Qed.

(** An error of [_init] on dynamic parameters aborts the traversal. *)
Lemma _render_init_error
    (e : env) (this this' : node) (ex : exception) (l : trace) :
  _memoLevel this = Some 0 ->
  _fixedParams this = false ->
  _init (_getParams this (Some (data e))) this = (Abrupt ex, this', l) ->
  _render transformPoints3 fromPoints e this
  = (Abrupt ex, this', GetParams (Some (data e)) :: l).
Proof.
  intros H0 Hdyn Hinit.
  assert (Hz : js_eq (_memoLevel this) 0 = true) by now rewrite H0.
  unfold _render, bind.
  now rewrite (render_level0_dynamic _ _ Hz Hdyn), Hinit.
Qed.

(** C9. Applying a configuration whose [levels] has a length other than the
    number of children raises the mismatch error, which is fatal, and
    leaves [_levels] as it was: in [_init], hence at construction with fixed
    parameters and during a traversal with dynamic ones.  When the lengths
    agree this error is not raised. *)
Theorem C9_levels_length_mismatch_is_fatal :
  (forall (params : Params) (ls : list Z) (this : node),
     levels params = Some ls ->
     length ls <> _children this ->
     exists this' : node,
       _init params this
       = (Abrupt ConfigMismatch, this', [FatalError ConfigMismatch] : trace) /\
       _levels this' = _levels this)
  /\
  (forall (params : Params) (ls : list Z) (this this' : node)
          (r : completion unit) (log : trace),
     levels params = Some ls ->
     length ls = _children this ->
     _init params this = (r, this', log) ->
     r <> Abrupt ConfigMismatch /\ ~ In (FatalError ConfigMismatch) log)
  /\
  (forall (base : Node Data) (ls : list Z),
     node_fixedParams base = true ->
     levels (node_getParams base None) = Some ls ->
     length ls <> node_children base ->
     exists (this' : node) (log : trace),
       SceneJS_BoundingBox base = (Abrupt ConfigMismatch, this', log) /\
       _levels this' = None)
  /\
  (forall (e : env) (this : node) (ls : list Z),
     _memoLevel this = Some 0 ->
     _fixedParams this = false ->
     levels (_getParams this (Some (data e))) = Some ls ->
     length ls <> _children this ->
     exists (this' : node) (log : trace),
       _render transformPoints3 fromPoints e this
       = (Abrupt ConfigMismatch, this', log) /\
       _levels this' = _levels this /\
       traversed (_children this) log = []).
Proof.
  split; [| split; [| split]].
  - intros params ls this Hls Hlen.
    rewrite (_init_mismatch _ _ _ Hls Hlen). eexists. split; reflexivity.
  - intros params ls this this' r log Hls Hlen Hinit.
    destruct (ascending_or_unordered ls this) as [Hasc | Hbad].
    + rewrite (_init_ascending _ _ _ Hls Hlen Hasc) in Hinit.
      injection Hinit as <- _ <-. split; [discriminate | intros []].
    + rewrite (_init_unordered _ _ _ Hls Hlen Hbad) in Hinit.
      injection Hinit as <- _ <-.
      split; [intros Heq | intros [Heq | []]];
        injection Heq as Heq; discriminate.
  - intros base ls Hfix Hls Hlen.
    rewrite (SceneJS_BoundingBox_fixed _ Hfix).
    rewrite (_init_mismatch _ ls _ Hls) by exact Hlen.
    eexists _, _. split; reflexivity.
  - intros e this ls H0 Hdyn Hls Hlen.
    rewrite (_render_init_error e this _ _ _ H0 Hdyn
               (_init_mismatch _ ls _ Hls Hlen)).
    eexists _, _. repeat split; reflexivity.
Qed.

(** C10, amended. Applying a configuration whose [levels] has one entry per
    child and some adjacent pair with [levels[i-1] >= levels[i]] raises the
    ordering error, which is fatal, and leaves [_levels] as it was: in
    [_init], at construction and during a traversal.  A strictly ascending
    list with one entry per child is accepted and stored.  When the length
    is wrong the mismatch error is raised first, ordered or not.  The lists
    10, 10, 20 and 20, 10, 30 each have an unordered pair. *)
Theorem C10_unordered_levels_are_fatal :
  (forall (params : Params) (ls : list Z) (this : node),
     levels params = Some ls ->
     length ls = _children this ->
     unordered_pair ls ->
     exists this' : node,
       _init params this
       = (Abrupt ConfigOrder, this', [FatalError ConfigOrder] : trace) /\
       _levels this' = _levels this)
  /\
  (forall (params : Params) (ls : list Z) (this : node),
     levels params = Some ls ->
     length ls = _children this ->
     strictly_ascending ls ->
     exists this' : node,
       _init params this = (Normal tt, this', [] : trace) /\
       _levels this' = Some ls)
  /\
  (forall (params : Params) (ls : list Z) (this : node),
     levels params = Some ls ->
     length ls <> _children this ->
     fst (fst (_init (Matrix:=Matrix) params this)) = Abrupt ConfigMismatch)
  /\
  (forall (base : Node Data) (ls : list Z),
     node_fixedParams base = true ->
     levels (node_getParams base None) = Some ls ->
     length ls = node_children base ->
     unordered_pair ls ->
     exists (this' : node) (log : trace),
       SceneJS_BoundingBox base = (Abrupt ConfigOrder, this', log) /\
       _levels this' = None)
  /\
  (forall (e : env) (this : node) (ls : list Z),
     _memoLevel this = Some 0 ->
     _fixedParams this = false ->
     levels (_getParams this (Some (data e))) = Some ls ->
     length ls = _children this ->
     unordered_pair ls ->
     exists (this' : node) (log : trace),
       _render transformPoints3 fromPoints e this
       = (Abrupt ConfigOrder, this', log) /\
       _levels this' = _levels this /\
       traversed (_children this) log = [])
  /\
  unordered_pair [10; 10; 20] /\ unordered_pair [20; 10; 30].
Proof.
  split; [| split; [| split; [| split; [| split; [| split]]]]].
  - intros params ls this Hls Hlen Hbad.
    rewrite (_init_unordered _ _ _ Hls Hlen Hbad). eexists. split; reflexivity.
  - intros params ls this Hls Hlen Hasc.
    rewrite (_init_ascending _ _ _ Hls Hlen Hasc). eexists. split; reflexivity.
  - intros params ls this Hls Hlen.
    now rewrite (_init_mismatch _ _ _ Hls Hlen).
  - intros base ls Hfix Hls Hlen Hbad.
    rewrite (SceneJS_BoundingBox_fixed _ Hfix).
    rewrite (_init_unordered _ ls _ Hls) by assumption.
    eexists _, _. split; reflexivity.
  - intros e this ls H0 Hdyn Hls Hlen Hbad.
    rewrite (_render_init_error e this _ _ _ H0 Hdyn
               (_init_unordered _ ls _ Hls Hlen Hbad)).
    eexists _, _. repeat split; reflexivity.
  - exists 1%nat, 10, 10. repeat split; lia.
  - exists 1%nat, 20, 10. repeat split; lia.
Qed.

(** ** Construction and the first traversal *)

Lemma SceneJS_BoundingBox_frame (base : Node Data) :
  exists (r : completion unit) (this : node) (log : trace),
    SceneJS_BoundingBox base = (r, this, log) /\
    _memoLevel this = node_memoLevel base /\
    _objectCoords this = None /\
    _viewBox this = None.
Proof.
  destruct (node_fixedParams base) eqn:Hfix.
  - rewrite (SceneJS_BoundingBox_fixed _ Hfix).
    destruct (_init_frame (node_getParams base None) (constructed_fields base))
      as (r & this & l & Heq & [] & _).
    rewrite Heq. eexists _, _, _. split; [reflexivity |].
    cbn in *. repeat split; congruence.
  - rewrite (SceneJS_BoundingBox_dynamic _ Hfix).
    eexists _, _, _. repeat split; reflexivity.
Qed.

(** With [_memoLevel] undefined both guards are false. *)
Lemma _render_undefined_level (e : env) (this : node) :
  _memoLevel this = None ->
  exists log : trace,
    _render transformPoints3 fromPoints e this
    = (Normal tt, this, OuterRadiusTest (_viewBox this) :: log) /\
    Forall (fun ev => recomputes ev = false) log.
Proof.
  intros Hu.
  assert (Hv : exists log : trace,
             render_visible e this
             = (Normal tt, this, OuterRadiusTest (_viewBox this) :: log) /\
             Forall (fun ev => recomputes ev = false) log).
  { destruct (render_visible_frame e this) as (lv & Hv & Hlv).
    revert Hv. unfold render_visible, bind, get, call. cbn.
    destruct (testAxisBoxIntersectOuterRadius e (_viewBox this)); cbn.
    - destruct (testAxisBoxIntersectInnerRadius e (_viewBox this)); cbn.
      + match goal with
        | |- context [match ?x this with _ => _ end] =>
            destruct (x this) as [[r1 t1] l1]
        end.
        intros Hv. injection Hv as -> -> <-.
        eexists. split; [reflexivity |].
        inversion Hlv; subst.
        eapply Forall_impl; [eassumption |]. now intros ev [Hev _].
      + intros _. eexists. split; [reflexivity |]. repeat constructor.
    - intros _. eexists. split; [reflexivity |]. constructor. }
  destruct Hv as (log & Hv & Hlog). exists log. split; [| exact Hlog].
  unfold _render, bind.
  rewrite render_level0_skip by now rewrite Hu.
  rewrite render_level1_skip by now rewrite Hu.
  now rewrite Hv.
Qed.

(** At level 0 a traversal that completes has derived the box. *)
Lemma _render_level0_derives_box (e : env) (this this' : node) (log : trace) :
  _memoLevel this = Some 0 ->
  _render transformPoints3 fromPoints e this = (Normal tt, this', log) ->
  _viewBox this'
  = Some (if identity (getTransform e)
          then viewBox_of this'
          else fromPoints (transformPoints3 (matrix (getTransform e))
                                            (Some (objectCoords_of this')))).
Proof.
  intros H0 Hrun.
  destruct (identity (getTransform e)) eqn:Hid.
  { now destruct (identity_path_enters_full _ _ _ _ Hrun H0 Hid). }
  assert (Hz : js_eq (_memoLevel this) 0 = true) by now rewrite H0.
  destruct (_render_cases e this)
    as [(ex & this1 & l0 & _ & Heq & _)
       | (this1 & this2 & l0 & l1 & lv & Hr0 & Hr1 & _ & Heq & _)];
    rewrite Heq in Hrun; [discriminate |].
  injection Hrun as <- _.
  assert (H1 : js_lt (_memoLevel this1) 2 = true /\
               _objectCoords this1 = Some (objectCoords_of this1)).
  { destruct (_fixedParams this) eqn:Hfix.
    - rewrite (render_level0_fixed _ _ Hz Hfix) in Hr0. injection Hr0 as <- _.
      unfold after_level0. rewrite Hid. split; reflexivity.
    - rewrite (render_level0_dynamic _ _ Hz Hfix) in Hr0.
      destruct (_init_frame (_getParams this (Some (data e))) this)
        as (ri & thisi & li & Heqi & Hframe & _).
      rewrite Heqi in Hr0. destruct ri as [[] | ex]; [| discriminate].
      injection Hr0 as <- _. unfold after_level0. rewrite Hid. cbn.
      rewrite (init_memoLevel _ _ _ _ Hframe), H0. split; reflexivity. }
  destruct H1 as [Hlt Hoc].
  rewrite (render_level1_run _ _ Hlt) in Hr1. injection Hr1 as <- _.
  unfold after_level1. rewrite Hoc.
  now destruct (fixed (getTransform e) && js_eq (_memoLevel this1) 1
                && negb (instancing e)).
Qed.

(** C4, amended. The constructor of this file never assigns the memo level:
    a new node has the level the base constructor left, which is 0, and no
    cached box.  So the first traversal of a new node, if it completes,
    derives the box.  [undefined == 0] and [undefined < 2] are both false:
    only if the level were undefined would the traversal skip both blocks,
    leave the node as it is, recompute nothing and apply the outer-radius
    test to [_viewBox] as it stands. *)
Theorem C4_memo_level_of_new_node :
  js_eq None 0 = false /\ js_lt None 2 = false
  /\
  (forall base : Node Data,
     exists (r : completion unit) (this : node) (log : trace),
       SceneJS_BoundingBox base = (r, this, log) /\
       _memoLevel this = node_memoLevel base /\
       _viewBox this = None)
  /\
  (forall args : NodeArgs Data,
     _memoLevel (snd (fst (new_BoundingBox (Matrix:=Matrix) args))) = Some 0)
  /\
  (forall (e : env) (this this' : node) (log : trace),
     _memoLevel this = Some 0 ->
     _render transformPoints3 fromPoints e this = (Normal tt, this', log) ->
     _viewBox this'
     = Some (if identity (getTransform e)
             then viewBox_of this'
             else fromPoints (transformPoints3 (matrix (getTransform e))
                                               (Some (objectCoords_of this')))))
  /\
  (forall (e : env) (this : node),
     _memoLevel this = None ->
     exists log : trace,
       _render transformPoints3 fromPoints e this
       = (Normal tt, this, OuterRadiusTest (_viewBox this) :: log) /\
       Forall (fun ev => recomputes ev = false) log).
Proof.
  split; [reflexivity |]. split; [reflexivity |].
  split; [| split; [| split]].
  - intros base.
    destruct (SceneJS_BoundingBox_frame base) as (r & this & log & H & Hm & _ & Hv).
    eauto 6.
  - intros args. unfold new_BoundingBox.
    destruct (SceneJS_BoundingBox_frame (SceneJS_Node args))
      as (r & this & log & H & Hm & _).
    now rewrite H.
  - apply _render_level0_derives_box.
  - apply _render_undefined_level.
Qed.

(** * Further properties of the accessors *)

(** X1. Reading an extent after setting it returns the value set; the other
    five extents and the thresholds are as before. *)
Theorem X1_set_then_get (v : Z) (this : node) :
  (exists this' : node,
     (setXMin v >> getXMin) this = (Normal v, this', [] : trace) /\
     extents_of this'
     = (v, _ymin this, _zmin this, _xmax this, _ymax this, _zmax this) /\
     _levels this' = _levels this) /\
  (exists this' : node,
     (setYMin v >> getYMin) this = (Normal v, this', [] : trace) /\
     extents_of this'
     = (_xmin this, v, _zmin this, _xmax this, _ymax this, _zmax this) /\
     _levels this' = _levels this) /\
  (exists this' : node,
     (setZMin v >> getZMin) this = (Normal v, this', [] : trace) /\
     extents_of this'
     = (_xmin this, _ymin this, v, _xmax this, _ymax this, _zmax this) /\
     _levels this' = _levels this) /\
  (exists this' : node,
     (setXMax v >> getXMax) this = (Normal v, this', [] : trace) /\
     extents_of this'
     = (_xmin this, _ymin this, _zmin this, v, _ymax this, _zmax this) /\
     _levels this' = _levels this) /\
  (exists this' : node,
     (setYMax v >> getYMax) this = (Normal v, this', [] : trace) /\
     extents_of this'
     = (_xmin this, _ymin this, _zmin this, _xmax this, v, _zmax this) /\
     _levels this' = _levels this) /\
  (exists this' : node,
     (setZMax v >> getZMax) this = (Normal v, this', [] : trace) /\
     extents_of this'
     = (_xmin this, _ymin this, _zmin this, _xmax this, _ymax this, v) /\
     _levels this' = _levels this).
Proof.
  repeat split; eexists; (split; [reflexivity | split; reflexivity]).
Qed.


(** X3. Construction computes no geometry: whatever the outcome, the new
    node has no cached corner points and no cached box, and no point has
    been transformed.  With fixed parameters the extents are those of the
    parameters, and the thresholds are installed if they are accepted and
    absent if they are rejected; with dynamic parameters nothing is read:
    the extents are 0 and there are no thresholds. *)
Theorem X3_construction_computes_no_geometry (base : Node Data) :
  exists (r : completion unit) (this : node) (log : trace),
    SceneJS_BoundingBox base = (r, this, log) /\
    _objectCoords this = None /\
    _viewBox this = None /\
    (forall m c, ~ In (TransformPoints3 m c) log) /\
    (if node_fixedParams base
     then extents_of this = extents_in (node_getParams base None) /\
          (r = Normal tt -> _levels this = levels (node_getParams base None)) /\
          (forall ex, r = Abrupt ex -> _levels this = None)
     else r = Normal tt /\ log = [] /\
          extents_of this = (0, 0, 0, 0, 0, 0) /\ _levels this = None).
Proof.
  destruct (node_fixedParams base) eqn:Hfix.
  - rewrite (SceneJS_BoundingBox_fixed _ Hfix).
    destruct (_init_frame (node_getParams base None) (constructed_fields base))
      as (r & this & l & Heq & Hframe & Hr).
    rewrite Heq. exists r, this, (GetParams None :: l).
    split; [reflexivity |]. destruct Hframe. cbn in *.
    split; [congruence |]. split; [congruence |]. split.
    + intros m c [Hin | Hin]; [discriminate |].
      rewrite Forall_forall in init_log0.
      apply list_elem_of_In, init_log0 in Hin as [ex Hin]. discriminate.
    + unfold extents_of, extents_in. split; [congruence |]. split.
      * intros ->. destruct Hr as [_ ->].
        now destruct (levels (node_getParams base None)).
      * intros ex ->. now destruct Hr as [_ ->].
  - rewrite (SceneJS_BoundingBox_dynamic _ Hfix).
    eexists _, _, _. split; [reflexivity |]. repeat split. intros m c [].
Qed.

(** * Further properties of [_init] *)

(** The only exceptions of [_init] are its two configuration errors. *)
Lemma _init_abrupt (params : Params) (this this' : node) (ex : exception)
    (log : trace) :
  _init params this = (Abrupt ex, this', log) ->
  (ex = ConfigMismatch \/ ex = ConfigOrder) /\
  exists ls, levels params = Some ls /\
             (ex = ConfigMismatch <-> length ls <> _children this).
Proof.
  intros H. destruct (levels params) as [ls |] eqn:Hls.
  2:{ rewrite (_init_no_levels _ _ Hls) in H. discriminate. }
  destruct (decide (length ls = _children this)) as [Hlen | Hlen].
  - destruct (ascending_or_unordered ls this) as [Hasc | Hbad].
    + rewrite (_init_ascending _ _ _ Hls Hlen Hasc) in H. discriminate.
    + rewrite (_init_unordered _ _ _ Hls Hlen Hbad) in H.
      injection H as <- _ _. split; [now right |]. exists ls.
      split; [reflexivity |]. split; [| contradiction].
      intros Heq. now destruct ConfigMismatch_neq_ConfigOrder.
  - rewrite (_init_mismatch _ _ _ Hls Hlen) in H. injection H as <- _ _.
    split; [now left |]. exists ls. split; [reflexivity |]. now split.
Qed.

Lemma _init_effect
    (params : Params) (this this' : node) (r : completion unit) (log : trace) :
  _init params this = (r, this', log) ->
  extents_of this' = extents_in params /\
  _memoLevel this' = _memoLevel this /\
  _objectCoords this' = _objectCoords this /\
  _viewBox this' = _viewBox this /\
  (forall ex, r = Abrupt ex ->
     _levels this' = _levels this /\ log = [FatalError ex]).
Proof.
  intros H.
  destruct (_init_frame params this) as (r' & this1 & l & Heq & [] & Hr).
  rewrite Heq in H. injection H as -> -> ->.
  unfold extents_of, extents_in.
  split; [congruence |]. split; [congruence |]. split; [congruence |].
  split; [congruence |]. intros ex ->. destruct Hr as [-> ->]. now split.
Qed.

(** X4. [_init] stores the six extents before it looks at [levels]: a
    rejected configuration still overwrites the extents, while the
    thresholds stay those installed before.  In no case does [_init] touch
    the memo level, the cached corner points or the cached box. *)
Theorem X4_init_stores_extents_first
    (params : Params) (this this' : node) (r : completion unit) (log : trace) :
  _init params this = (r, this', log) ->
  extents_of this' = extents_in params /\
  _memoLevel this' = _memoLevel this /\
  _objectCoords this' = _objectCoords this /\
  _viewBox this' = _viewBox this /\
  (forall ex, r = Abrupt ex ->
     _levels this' = _levels this /\ log = [FatalError ex]).
Proof. apply _init_effect. Qed.

(** * Further properties of [_render] *)

Lemma after_level0_frame (e : env) (this : node) :
  _children (after_level0 e this) = _children this /\
  _fixedParams (after_level0 e this) = _fixedParams this /\
  _getParams (after_level0 e this) = _getParams this /\
  extents_of (after_level0 e this) = extents_of this /\
  _levels (after_level0 e this) = _levels this.
Proof.
  unfold after_level0. now destruct (identity (getTransform e)).
Qed.

Lemma after_level1_frame (e : env) (this : node) :
  _children (after_level1 e this) = _children this /\
  _fixedParams (after_level1 e this) = _fixedParams this /\
  _getParams (after_level1 e this) = _getParams this /\
  extents_of (after_level1 e this) = extents_of this /\
  _levels (after_level1 e this) = _levels this.
Proof.
  unfold after_level1.
  now destruct (fixed (getTransform e) && js_eq (_memoLevel this) 1
                && negb (instancing e)).
Qed.

Lemma render_level1_frame (e : env) (this this' : node)
    (r : completion unit) (log : trace) :
  render_level1 transformPoints3 fromPoints e this = (r, this', log) ->
  r = Normal tt /\
  _children this' = _children this /\
  _fixedParams this' = _fixedParams this /\
  _getParams this' = _getParams this /\
  extents_of this' = extents_of this /\
  _levels this' = _levels this.
Proof.
  intros H. destruct (js_lt (_memoLevel this) 2) eqn:Hlt.
  - rewrite (render_level1_run _ _ Hlt) in H. injection H as <- <- _.
    split; [reflexivity | apply after_level1_frame].
  - rewrite (render_level1_skip _ _ Hlt) in H. injection H as <- <- _.
    repeat split.
Qed.

(** What the first block does to a node that does not re-read parameters. *)
Lemma render_level0_static (e : env) (this : node) :
  js_eq (_memoLevel this) 0 = false \/ _fixedParams this = true ->
  exists this1 : node,
    render_level0 e this = (Normal tt, this1, [] : trace) /\
    _children this1 = _children this /\
    _fixedParams this1 = _fixedParams this /\
    _getParams this1 = _getParams this /\
    extents_of this1 = extents_of this /\
    _levels this1 = _levels this.
Proof.
  intros H. destruct (js_eq (_memoLevel this) 0) eqn:Hz.
  - destruct H as [H | Hfix]; [discriminate |].
    rewrite (render_level0_fixed _ _ Hz Hfix). eexists. split; [reflexivity |].
    apply (after_level0_frame e (set_memoLevel (Some 1) this)).
  - rewrite (render_level0_skip _ _ Hz). eexists. split; [reflexivity |].
    repeat split.
Qed.

Lemma static_traversal (e : env) (this : node) :
  _fixedParams this = true \/ js_eq (_memoLevel this) 0 = false ->
  exists (this' : node) (log : trace),
    _render transformPoints3 fromPoints e this = (Normal tt, this', log) /\
    extents_of this' = extents_of this /\
    _levels this' = _levels this /\
    _children this' = _children this /\
    _fixedParams this' = _fixedParams this /\
    _getParams this' = _getParams this /\
    Forall (fun ev => reads_params ev = false /\
                      forall ex, ev <> FatalError ex) log.
Proof.
  intros H.
  destruct (render_level0_static e this ltac:(tauto))
    as (this1 & Hr0 & Hc0 & Hf0 & Hg0 & He0 & Hl0).
  destruct (render_level1_log e this1) as (this2 & l1 & Hr1 & _).
  destruct (render_level1_frame _ _ _ _ _ Hr1) as (_ & Hc1 & Hf1 & Hg1 & He1 & Hl1).
  destruct (render_visible_frame e this2) as (lv & Hv & Hlv).
  exists this2, (l1 ++ lv). unfold _render, bind. rewrite Hr0, Hr1, Hv. cbn.
  repeat split; try congruence.
  apply Forall_app. split.
  - destruct (js_lt (_memoLevel this1) 2) eqn:Hlt.
    + rewrite (render_level1_run _ _ Hlt) in Hr1. injection Hr1 as _ <-.
      repeat constructor. discriminate.
    + rewrite (render_level1_skip _ _ Hlt) in Hr1. injection Hr1 as _ <-.
      constructor.
  - eapply Forall_impl; [exact Hlv |]. intros ev [Hev _].
    split; [now destruct ev | intros ex ->; discriminate].
Qed.

(** X7. Traversing a node with fixed parameters, or any node whose memo
    level is not 0, never fails and never reads the parameters: the
    traversal completes, and the extents, the thresholds and the fields of
    the base class are as before. *)
Theorem X7_static_traversal_never_fails (e : env) (this : node) :
  _fixedParams this = true \/ js_eq (_memoLevel this) 0 = false ->
  exists (this' : node) (log : trace),
    _render transformPoints3 fromPoints e this = (Normal tt, this', log) /\
    extents_of this' = extents_of this /\
    _levels this' = _levels this /\
    _children this' = _children this /\
    _fixedParams this' = _fixedParams this /\
    _getParams this' = _getParams this /\
    Forall (fun ev => reads_params ev = false /\
                      forall ex, ev <> FatalError ex) log.
Proof. apply static_traversal. Qed.

(** X8. A traversal fails only in one way: the node has dynamic parameters
    and memo level 0, the parameters just read are rejected by [_init], and
    nothing else has happened.  The node keeps level 0, its thresholds and
    its caches, and takes the extents of the rejected parameters; no
    visibility query is made and no child is traversed. *)
Theorem X8_aborted_traversal
    (e : env) (this this' : node) (ex : exception) (log : trace) :
  _render transformPoints3 fromPoints e this = (Abrupt ex, this', log) ->
  _fixedParams this = false /\
  _memoLevel this = Some 0 /\
  (ex = ConfigMismatch \/ ex = ConfigOrder) /\
  log = [GetParams (Some (data e)); FatalError ex] /\
  _memoLevel this' = Some 0 /\
  _levels this' = _levels this /\
  _objectCoords this' = _objectCoords this /\
  _viewBox this' = _viewBox this /\
  extents_of this' = extents_in (_getParams this (Some (data e))).
Proof.
  intros Hrun.
  destruct (_fixedParams this) eqn:Hfix.
  { destruct (static_traversal e this ltac:(now left))
      as (t & l & Heq & _). rewrite Heq in Hrun. discriminate. }
  destruct (js_eq (_memoLevel this) 0) eqn:Hz.
  2:{ destruct (static_traversal e this ltac:(now right))
        as (t & l & Heq & _). rewrite Heq in Hrun. discriminate. }
  destruct (_render_cases e this)
    as [(ex' & this1 & l0 & Hr0 & Heq & _)
       | (this1 & this2 & l0 & l1 & lv & _ & _ & _ & Heq & _)];
    rewrite Heq in Hrun; [| discriminate].
  injection Hrun as -> -> ->.
  rewrite (render_level0_dynamic _ _ Hz Hfix) in Hr0.
  destruct (_init (Matrix:=Matrix) (_getParams this (Some (data e))) this)
    as [[[[] | exi] thisi] li] eqn:Hinit; [discriminate |].
  injection Hr0 as -> -> <-.
  destruct (_init_abrupt _ _ _ _ _ Hinit) as (Hex & _).
  destruct (_init_effect _ _ _ _ _ Hinit)
    as (Hext & Hm & Hoc & Hvb & Hab).
  destruct (Hab ex eq_refl) as [Hlev ->].
  apply js_eq_true in Hz.
  repeat split; try assumption; congruence.
Qed.

(** The memo level after each of the first two blocks. *)
Lemma render_level0_memoLevel
    (e : env) (this this1 : node) (r : completion unit) (l0 : trace) :
  render_level0 e this = (r, this1, l0) ->
  _memoLevel this1 = _memoLevel this \/
  (_memoLevel this = Some 0 /\
   (_memoLevel this1 = Some 2 /\ identity (getTransform e) = true \/
    _memoLevel this1 = Some 1 /\ _fixedParams this = true)).
Proof.
  intros Hr0. destruct (js_eq (_memoLevel this) 0) eqn:Hz.
  2:{ rewrite (render_level0_skip _ _ Hz) in Hr0. injection Hr0 as _ <- _.
      now left. }
  pose proof (proj1 (js_eq_true _ _) Hz) as H0.
  destruct (_fixedParams this) eqn:Hfix.
  { rewrite (render_level0_fixed _ _ Hz Hfix) in Hr0. injection Hr0 as _ <- _.
    right. split; [exact H0 |]. unfold after_level0.
    destruct (identity (getTransform e)); cbn; auto. }
  rewrite (render_level0_dynamic _ _ Hz Hfix) in Hr0.
  destruct (_init_frame (_getParams this (Some (data e))) this)
    as (ri & thisi & li & Heqi & Hframe & _).
  rewrite Heqi in Hr0.
  pose proof (init_memoLevel _ _ _ _ Hframe) as Hmi.
  destruct ri as [[] | ex]; injection Hr0 as _ <- _; [| now left].
  unfold after_level0. destruct (identity (getTransform e)) eqn:Hid; cbn.
  - right. split; [exact H0 |]. left. now split.
  - now left.
Qed.

Lemma render_level1_memoLevel
    (e : env) (this this1 : node) (r : completion unit) (l1 : trace) :
  render_level1 transformPoints3 fromPoints e this = (r, this1, l1) ->
  _memoLevel this1 = _memoLevel this \/
  (_memoLevel this = Some 1 /\ _memoLevel this1 = Some 2 /\
   fixed (getTransform e) = true /\ instancing e = false).
Proof.
  intros Hr1. destruct (js_lt (_memoLevel this) 2) eqn:Hlt.
  2:{ rewrite (render_level1_skip _ _ Hlt) in Hr1. injection Hr1 as _ <- _.
      now left. }
  rewrite (render_level1_run _ _ Hlt) in Hr1. injection Hr1 as _ <- _.
  unfold after_level1.
  destruct (fixed (getTransform e)) eqn:Hf; cbn; [| now left].
  destruct (js_eq (_memoLevel this) 1) eqn:H1; cbn; [| now left].
  destruct (instancing e) eqn:Hi; cbn; [now left |].
  right. apply js_eq_true in H1. auto.
Qed.

(** X12. A traversal never lowers the memo level: a level [a] becomes a
    level between [a] and [max a 2], whether the traversal completes or
    fails.  Only the setters take a node back to level 0. *)
Theorem X12_memo_level_never_decreases
    (e : env) (this this' : node) (r : completion unit) (log : trace) (a : Z) :
  _render transformPoints3 fromPoints e this = (r, this', log) ->
  _memoLevel this = Some a ->
  exists b, _memoLevel this' = Some b /\ a <= b <= Z.max a 2.
Proof.
  intros Hrun Ha.
  assert (Hstep0 : forall (r0 : completion unit) (this1 : node) (l0 : trace),
             render_level0 e this = (r0, this1, l0) ->
             exists b1, _memoLevel this1 = Some b1 /\ a <= b1 <= Z.max a 2).
  { intros r0 this1 l0 Hr0. apply render_level0_memoLevel in Hr0.
    destruct Hr0 as [H | (H0 & [[H _] | [H _]])].
    - exists a. split; [congruence | lia].
    - exists 2. split; [exact H |]. rewrite Ha in H0. injection H0 as ->. lia.
    - exists 1. split; [exact H |]. rewrite Ha in H0. injection H0 as ->. lia. }
  destruct (_render_cases e this)
    as [(ex & this1 & l0 & Hr0 & Heq & _)
       | (this1 & this2 & l0 & l1 & lv & Hr0 & Hr1 & _ & Heq & _)];
    rewrite Heq in Hrun; injection Hrun as <- <- <-;
    destruct (Hstep0 _ _ _ Hr0) as (b1 & Hb1 & Hrange).
  - exists b1. split; assumption.
  - apply render_level1_memoLevel in Hr1.
    destruct Hr1 as [H1 | (H1 & H2 & _)].
    + exists b1. split; [congruence | exact Hrange].
    + exists 2. split; [exact H2 |].
      rewrite Hb1 in H1. injection H1 as ->. lia.
Qed.

(** The traversal of a node at level 0 under an identity transform. *)
Lemma identity_traversal (e : env) (this this' : node) (log : trace) :
  _render transformPoints3 fromPoints e this = (Normal tt, this', log) ->
  _memoLevel this = Some 0 ->
  identity (getTransform e) = true ->
  _memoLevel this' = Some 2 /\
  _viewBox this' = Some (viewBox_of this') /\
  _objectCoords this' = _objectCoords this /\
  forall m c, ~ In (TransformPoints3 m c) log.
Proof.
  intros Hrun H0 Hid.
  destruct (identity_path_enters_full _ _ _ _ Hrun H0 Hid) as [Hm Hb].
  split; [exact Hm |]. split; [exact Hb |].
  assert (Hz : js_eq (_memoLevel this) 0 = true) by now rewrite H0.
  destruct (_render_cases e this)
    as [(ex & this1 & l0 & _ & Heq & _)
       | (this1 & this2 & l0 & l1 & lv & Hr0 & Hr1 & Hv & Heq & _)];
    rewrite Heq in Hrun; [discriminate |].
  injection Hrun as <- <-.
  assert (H1 : _memoLevel this1 = Some 2 /\
               _objectCoords this1 = _objectCoords this /\
               forall m c, ~ In (TransformPoints3 m c) l0).
  { destruct (_fixedParams this) eqn:Hfix.
    - rewrite (render_level0_fixed _ _ Hz Hfix) in Hr0. injection Hr0 as <- <-.
      unfold after_level0. rewrite Hid. repeat split. intros m c [].
    - rewrite (render_level0_dynamic _ _ Hz Hfix) in Hr0.
      destruct (_init_frame (_getParams this (Some (data e))) this)
        as (ri & thisi & li & Heqi & Hframe & Hri).
      rewrite Heqi in Hr0. destruct ri as [[] | ex]; [| discriminate].
      injection Hr0 as <- <-. destruct Hri as [-> _].
      unfold after_level0. rewrite Hid. cbn.
      split; [reflexivity |].
      split; [apply (init_objectCoords _ _ _ _ Hframe) |].
      intros m c [H | []]. discriminate. }
  destruct H1 as (Hm1 & Hoc & Hl0).
  rewrite render_level1_skip in Hr1 by now rewrite Hm1.
  injection Hr1 as <- <-. split; [exact Hoc |].
  destruct (render_visible_frame e this1) as (lv' & Hv' & Hlv).
  rewrite Hv in Hv'. injection Hv' as <-.
  intros m c Hin. cbn in Hin.
  apply in_app_or in Hin as [Hin | Hin]; [now apply Hl0 in Hin |].
  rewrite Forall_forall in Hlv.
  apply list_elem_of_In, Hlv in Hin as [Hin _]. discriminate.
Qed.

(** X9. With no model transform, a completed traversal from level 0 takes
    the extents themselves as the box: no point is transformed, the corner
    points are left as they were, and the level becomes 2. *)
Theorem X9_identity_box_is_the_extents
    (e : env) (this this' : node) (log : trace) :
  _render transformPoints3 fromPoints e this = (Normal tt, this', log) ->
  _memoLevel this = Some 0 ->
  identity (getTransform e) = true ->
  _viewBox this'
  = Some {| box_min := (_xmin this', _ymin this', _zmin this');
            box_max := (_xmax this', _ymax this', _zmax this') |} /\
  _memoLevel this' = Some 2 /\
  _objectCoords this' = _objectCoords this /\
  forall m c, ~ In (TransformPoints3 m c) log.
Proof.
  intros Hrun H0 Hid.
  destruct (identity_traversal _ _ _ _ Hrun H0 Hid) as (Hm & Hb & Hoc & Hl).
  repeat split; assumption.
Qed.

(** X10. A node with fixed parameters under a model transform that is
    fixed, with no instancing, is frozen by a single traversal from level 0:
    the eight corner points are transformed once, their box is cached, the
    corner points are dropped and the level becomes 2. *)
Theorem X10_static_transform_freezes_at_once (e : env) (this : node) :
  _memoLevel this = Some 0 ->
  _fixedParams this = true ->
  identity (getTransform e) = false ->
  fixed (getTransform e) = true ->
  instancing e = false ->
  exists lv : trace,
    _render transformPoints3 fromPoints e this
    = (Normal tt,
       set_memoLevel (Some 2)
         (set_objectCoords None
            (set_viewBox
               (Some (fromPoints
                        (transformPoints3 (matrix (getTransform e))
                                          (Some (objectCoords_of this)))))
               this)),
       TransformPoints3 (matrix (getTransform e)) (Some (objectCoords_of this))
       :: lv) /\
    Forall (fun ev => recomputes ev = false) lv.
Proof.
  intros H0 Hfix Hid Hfixed Hinst.
  assert (Hz : js_eq (_memoLevel this) 0 = true) by now rewrite H0.
  unfold _render, bind.
  rewrite (render_level0_fixed _ _ Hz Hfix). unfold after_level0. rewrite Hid.
  rewrite render_level1_run by reflexivity.
  unfold after_level1. cbn [_objectCoords _memoLevel set_objectCoords
                            set_memoLevel set_viewBox].
  rewrite Hfixed, Hinst. cbn [js_eq Z.eqb Pos.eqb andb negb].
  match goal with
  | |- context [render_visible e ?t] =>
      destruct (render_visible_frame e t) as (lv & Hv & Hlv); rewrite Hv
  end.
  exists lv. split; [reflexivity |].
  eapply Forall_impl; [exact Hlv |]. now intros ev [Hev _].
Qed.

(** One traversal of a node at level 1. *)
Lemma partial_step (e : env) (this : node) :
  _memoLevel this = Some 1 ->
  exists (this' : node) (lv : trace),
    _render transformPoints3 fromPoints e this
    = (Normal tt, this',
       TransformPoints3 (matrix (getTransform e)) (_objectCoords this) :: lv) /\
    Forall (fun ev => recomputes ev = false) lv /\
    _viewBox this'
    = Some (fromPoints (transformPoints3 (matrix (getTransform e))
                                         (_objectCoords this))) /\
    (if fixed (getTransform e) && negb (instancing e)
     then _memoLevel this' = Some 2 /\ _objectCoords this' = None
     else _memoLevel this' = Some 1 /\ _objectCoords this' = _objectCoords this).
Proof.
  intros H1.
  unfold _render, bind.
  rewrite render_level0_skip by now rewrite H1.
  rewrite render_level1_run by now rewrite H1.
  destruct (render_visible_frame e (after_level1 e this)) as (lv & Hv & Hlv).
  rewrite Hv. exists (after_level1 e this), lv.
  split; [reflexivity |].
  split; [eapply Forall_impl; [exact Hlv |]; now intros ev [Hev _] |].
  unfold after_level1. rewrite H1. cbn [js_eq Z.eqb Pos.eqb].
  rewrite andb_true_r.
  destruct (fixed (getTransform e)), (instancing e); cbn; auto.
Qed.

(** X11. At level 1 every traversal transforms the cached corner points by
    the current matrix and caches their box, whether or not the transform
    is now flagged as the identity.  The node is frozen at level 2, and the
    corner points dropped, exactly when the transform is fixed and there is
    no instancing; otherwise it stays at level 1 with its corner points. *)
Theorem X11_partial_level_recomputes (e : env) (this : node) :
  _memoLevel this = Some 1 ->
  exists (this' : node) (lv : trace),
    _render transformPoints3 fromPoints e this
    = (Normal tt, this',
       TransformPoints3 (matrix (getTransform e)) (_objectCoords this) :: lv) /\
    Forall (fun ev => recomputes ev = false) lv /\
    _viewBox this'
    = Some (fromPoints (transformPoints3 (matrix (getTransform e))
                                         (_objectCoords this))) /\
    (if fixed (getTransform e) && negb (instancing e)
     then _memoLevel this' = Some 2 /\ _objectCoords this' = None
     else _memoLevel this' = Some 1 /\ _objectCoords this' = _objectCoords this).
Proof. apply partial_step. Qed.

Lemma no_recomputes_filter (log : trace) :
  Forall (fun ev => recomputes ev = false) log ->
  filter (fun ev => recomputes ev = true) log = [].
Proof.
  induction 1 as [| ev l Hev _ IH]; [reflexivity |].
  rewrite filter_cons, decide_False by congruence. exact IH.
Qed.

(** X23. While the model transform is not fixed, or instancing is active,
    a node at level 1 is never frozen: over any number of traversals it
    stays at level 1 with the same corner points, transforms them once per
    traversal with the matrix of that traversal, and ends with the box of
    the last one. *)
Theorem X23_moving_node_recomputes_every_frame (envs : list env) (this : node) :
  Forall (fun e => fixed (getTransform e) && negb (instancing e) = false) envs ->
  _memoLevel this = Some 1 ->
  exists (this' : node) (log : trace),
    traversals transformPoints3 fromPoints envs this = (Normal tt, this', log) /\
    _memoLevel this' = Some 1 /\
    _objectCoords this' = _objectCoords this /\
    filter (fun ev => recomputes ev = true) log
    = map (fun e => TransformPoints3 (matrix (getTransform e))
                                     (_objectCoords this)) envs /\
    forall e, last envs = Some e ->
      _viewBox this'
      = Some (fromPoints (transformPoints3 (matrix (getTransform e))
                                           (_objectCoords this))).
Proof.
  intros Hall. revert this.
  induction Hall as [| e envs He _ IH]; intros this H1.
  - exists this, [].
    split; [reflexivity |]. split; [exact H1 |]. split; [reflexivity |].
    split; [reflexivity |]. intros e He. discriminate.
  - destruct (partial_step e this H1) as (this1 & lv & Hstep & Hlv & Hbox & Hlevel).
    rewrite He in Hlevel. destruct Hlevel as [Hm1 Hoc1].
    destruct (IH this1 Hm1) as (this' & l2 & Hrest & Hm & Hoc & Hlog & Hlast).
    exists this', ((TransformPoints3 (matrix (getTransform e))
                                     (_objectCoords this) :: lv) ++ l2).
    split; [cbn [traversals]; unfold bind; now rewrite Hstep, Hrest |].
    split; [exact Hm |]. split; [congruence |]. split.
    + rewrite filter_app, Hlog, filter_cons, decide_True by reflexivity.
      rewrite (no_recomputes_filter _ Hlv), Hoc1. reflexivity.
    + intros e' He'. destruct envs as [| e2 envs].
      * injection Hrest as <- _. injection He' as <-. exact Hbox.
      * rewrite (Hlast e' He'), Hoc1. reflexivity.
Qed.

(** ** Dynamic parameters *)

(** The traversal of a node with dynamic parameters at level 0 applies the
    parameters read for the frame, whether it completes or not. *)
Lemma dynamic_traversal
    (e : env) (this this' : node) (r : completion unit) (log : trace) :
  _render transformPoints3 fromPoints e this = (r, this', log) ->
  _memoLevel this = Some 0 ->
  _fixedParams this = false ->
  exists (thisi : node) (ri : completion unit) (li : trace),
    _init (_getParams this (Some (data e))) this = (ri, thisi, li) /\
    extents_of this' = extents_of thisi /\
    _levels this' = _levels thisi /\
    exists rest : trace,
      log = GetParams (Some (data e)) :: li ++ rest /\
      Forall (fun ev => reads_params ev = false) rest /\
      (forall ex, ri = Abrupt ex -> r = Abrupt ex /\ rest = []) /\
      (ri = Normal tt -> r = Normal tt).
Proof.
  intros Hrun H0 Hdyn.
  assert (Hz : js_eq (_memoLevel this) 0 = true) by now rewrite H0.
  destruct (_init (Matrix:=Matrix) (_getParams this (Some (data e))) this)
    as [[ri thisi] li] eqn:Hinit.
  exists thisi, ri, li. split; [reflexivity |].
  destruct (_render_cases e this)
    as [(ex & this1 & l0 & Hr0 & Heq & _)
       | (this1 & this2 & l0 & l1 & lv & Hr0 & Hr1 & Hv & Heq & _)];
    rewrite Heq in Hrun; injection Hrun as <- <- <-;
    rewrite (render_level0_dynamic _ _ Hz Hdyn), Hinit in Hr0.
  - destruct ri as [[] | exi]; [discriminate |]. injection Hr0 as <- <- <-.
    split; [reflexivity |]. split; [reflexivity |].
    exists []. rewrite app_nil_r. split; [reflexivity |].
    split; [constructor |]. split; [| discriminate].
    intros ex' Heq'. injection Heq' as ->. now split.
  - destruct ri as [[] | exi]; [| discriminate]. injection Hr0 as <- <-.
    destruct (render_level1_frame _ _ _ _ _ Hr1) as (_ & _ & _ & _ & He1 & Hl1).
    destruct (after_level0_frame e thisi) as (_ & _ & _ & He0 & Hl0).
    split; [congruence |]. split; [congruence |].
    exists (l1 ++ lv). split; [reflexivity |].
    split; [| split; [discriminate | reflexivity]].
    apply Forall_app. split.
    + destruct (js_lt (_memoLevel (after_level0 e thisi)) 2) eqn:Hlt.
      * rewrite (render_level1_run _ _ Hlt) in Hr1. injection Hr1 as _ <-.
        now repeat constructor.
      * rewrite (render_level1_skip _ _ Hlt) in Hr1. injection Hr1 as _ <-.
        constructor.
    + destruct (render_visible_frame e this2) as (lv' & Hv' & Hlv).
      rewrite Hv in Hv'. injection Hv' as <-.
      eapply Forall_impl; [exact Hlv |]. intros ev [Hev _]. now destruct ev.
Qed.

(** X5. Parameters without [levels] never remove thresholds: when the
    parameters read for a frame have no [levels], the traversal completes
    and the thresholds installed earlier stay in force. *)
Theorem X5_missing_levels_keep_thresholds (e : env) (this : node) :
  _memoLevel this = Some 0 ->
  _fixedParams this = false ->
  levels (_getParams this (Some (data e))) = None ->
  exists (this' : node) (log : trace),
    _render transformPoints3 fromPoints e this = (Normal tt, this', log) /\
    _levels this' = _levels this /\
    extents_of this' = extents_in (_getParams this (Some (data e))).
Proof.
  intros H0 Hdyn Hnone.
  destruct (_render transformPoints3 fromPoints e this) as [[r this'] log] eqn:Hrun.
  destruct (dynamic_traversal _ _ _ _ _ Hrun H0 Hdyn)
    as (thisi & ri & li & Hinit & Hext & Hlev & rest & _ & _ & _ & Hnormal).
  rewrite (_init_no_levels _ _ Hnone) in Hinit. injection Hinit as <- <- <-.
  rewrite (Hnormal eq_refl). exists this', log.
  split; [reflexivity |]. split; [exact Hlev | exact Hext].
Qed.

(** X6. A list of fewer than two thresholds has no pair to compare: with
    one entry per child it is always accepted, the empty list included.
    With the empty list installed a node inside both radii traverses
    nothing, where a node without thresholds would traverse all children. *)
Theorem X6_short_levels :
  (forall (params : Params) (ls : list Z) (this : node),
     levels params = Some ls ->
     (length ls <= 1)%nat ->
     length ls = _children this ->
     _init params this
     = (Normal tt, set_levels (Some ls) (assign_extents params this),
        [] : trace))
  /\
  (forall (e : env) (this this' : node) (log : trace),
     _render transformPoints3 fromPoints e this = (Normal tt, this', log) ->
     _levels this' = Some [] ->
     testAxisBoxIntersectInnerRadius e (_viewBox this') = true ->
     filter (fun ev => dispatches ev = true) log = []).
Proof.
  split.
  - intros params ls this Hls Hshort Hlen.
    apply (_init_ascending _ _ _ Hls Hlen).
    intros i a b Hi Ha Hb. apply lookup_lt_Some in Hb. lia.
  - intros e this this' log Hrun Hnil Hin.
    destruct (_render_normal _ _ _ _ Hrun) as (l01 & lv & -> & Hl01 & Hv).
    rewrite filter_app, (cache_log_filter _ Hl01). cbn.
    destruct (testAxisBoxIntersectOuterRadius e (_viewBox this')) eqn:Ho.
    2:{ rewrite (render_visible_outside _ _ Ho) in Hv. now injection Hv as <-. }
    destruct (decide (testAxisBoxIntersection e (_viewBox this')
                      = SceneJS_math_OUTSIDE_FRUSTUM)) as [Hf | Hf].
    { rewrite (render_visible_culled _ _ Ho Hin Hf) in Hv.
      now injection Hv as <-. }
    rewrite (render_visible_lod _ _ _ Ho Hin Hf Hnil) in Hv.
    now injection Hv as <-.
Qed.

(** ** Setters and traversals together *)

Lemma perform_setter (o : operation) (this : node) :
  is_setter o = true ->
  exists s : node,
    perform o this = (Normal tt, s, [] : trace) /\
    _memoLevel s = Some 0 /\
    _fixedParams s = _fixedParams this /\
    _getParams s = _getParams this /\
    _children s = _children this /\
    _levels s = _levels this.
Proof.
  intros Hs. destruct o; try discriminate; eexists;
    (split; [reflexivity |]); repeat split.
Qed.

Lemma perform_well_formed
    (o : operation) (this this' : node) (r : completion unit) (log : trace) :
  well_formed this ->
  perform o this = (r, this', log) ->
  well_formed this' /\
  forall m c, In (TransformPoints3 m c) log -> c <> None.
Proof.
  intros Hwf H. destruct (is_setter o) eqn:Hs.
  - destruct (perform_setter o this Hs) as (s & Heq & Hm & _).
    rewrite Heq in H. injection H as _ <- <-.
    split; [right; left; exact Hm | intros m c []].
  - destruct o; try discriminate. cbn in H.
    now apply (_render_well_formed _ _ _ _ _ Hwf H).
Qed.

(** X13. Whatever a client does to a well-formed node, in any order (the
    seven setters, traversals that complete or fail), the node stays well
    formed: its memo level is undefined, 0, 1 or 2, and at level 1 the
    corner points are in place.  Hence the corner points handed to the
    point transform are never [undefined] or [null]. *)
Theorem X13_well_formed_is_invariant
    (ops : list operation) (this this' : node) (r : completion unit)
    (log : trace) :
  well_formed this ->
  perform_all ops this = (r, this', log) ->
  well_formed this' /\
  forall m c, In (TransformPoints3 m c) log -> c <> None.
Proof.
  revert this log. induction ops as [| o ops IH]; intros this log Hwf H.
  - injection H as _ <- <-. split; [exact Hwf | intros m c []].
  - cbn [perform_all] in H. unfold bind in H.
    destruct (perform o this) as [[[[] | ex] this1] l1] eqn:Ho.
    + destruct (perform_all ops this1) as [[r2 this2] l2] eqn:Hrest.
      injection H as <- <- <-.
      destruct (perform_well_formed _ _ _ _ _ Hwf Ho) as [Hwf1 Hl1].
      destruct (IH _ _ Hwf1 Hrest) as [Hwf2 Hl2].
      split; [exact Hwf2 |]. intros m c Hin.
      apply in_app_or in Hin as [Hin | Hin]; eauto.
    + injection H as _ <- <-.
      now apply (perform_well_formed _ _ _ _ _ Hwf Ho).
Qed.

(** X14. On a node with fixed parameters a setter takes effect at the next
    traversal, whatever the memo level was: the traversal completes, keeps
    the extents as set, and caches the box derived from them (the extents
    themselves with no model transform, the box of the transformed corner
    points otherwise). *)
Theorem X14_setter_takes_effect (o : operation) (e : env) (this : node) :
  is_setter o = true ->
  _fixedParams this = true ->
  exists (s this' : node) (log : trace),
    perform o this = (Normal tt, s, [] : trace) /\
    (perform o >> _render transformPoints3 fromPoints e) this
    = (Normal tt, this', log) /\
    extents_of this' = extents_of s /\
    _viewBox this'
    = Some (if identity (getTransform e)
            then viewBox_of s
            else fromPoints (transformPoints3 (matrix (getTransform e))
                                              (Some (objectCoords_of s)))).
Proof.
  intros Hs Hfix.
  destruct (perform_setter o this Hs) as (s & Ho & Hm & Hf & _).
  destruct (static_traversal e s ltac:(left; congruence))
    as (this' & log & Hrun & Hext & _).
  exists s, this', log. split; [exact Ho |].
  split; [unfold bind; now rewrite Ho, Hrun |].
  split; [exact Hext |].
  rewrite (_render_level0_derives_box _ _ _ _ Hm Hrun).
  unfold extents_of in Hext. injection Hext as Hx0 Hy0 Hz0 Hx1 Hy1 Hz1.
  unfold viewBox_of, objectCoords_of.
  now rewrite Hx0, Hy0, Hz0, Hx1, Hy1, Hz1.
Qed.

(** X15. On a node with dynamic parameters a setter does not last: the next
    traversal reads the parameters and overwrites all six extents with
    them, whether the traversal completes or fails. *)
Theorem X15_setter_is_overwritten
    (o : operation) (e : env) (this this' : node) (r : completion unit)
    (log : trace) :
  is_setter o = true ->
  _fixedParams this = false ->
  (perform o >> _render transformPoints3 fromPoints e) this = (r, this', log) ->
  extents_of this' = extents_in (_getParams this (Some (data e))) /\
  In (GetParams (Some (data e))) log.
Proof.
  intros Hs Hdyn H.
  destruct (perform_setter o this Hs) as (s & Ho & Hm & Hf & Hg & _).
  unfold bind in H. rewrite Ho in H.
  destruct (_render transformPoints3 fromPoints e s) as [[r2 this2] l2] eqn:Hrun.
  injection H as _ <- <-.
  destruct (dynamic_traversal _ _ _ _ _ Hrun Hm ltac:(congruence))
    as (thisi & ri & li & Hinit & Hext & _ & rest & -> & _).
  destruct (_init_effect _ _ _ _ _ Hinit) as (Hexti & _).
  split; [rewrite Hext, Hexti, Hg; reflexivity | now left].
Qed.

Lemma traversals_cons_normal
    (e : env) (envs : list env) (this this' : node) (log : trace) :
  traversals transformPoints3 fromPoints (e :: envs) this
  = (Normal tt, this', log) ->
  exists (this1 : node) (l1 l2 : trace),
    _render transformPoints3 fromPoints e this = (Normal tt, this1, l1) /\
    traversals transformPoints3 fromPoints envs this1 = (Normal tt, this', l2) /\
    log = l1 ++ l2.
Proof.
  cbn [traversals]. unfold bind. intros H.
  destruct (_render transformPoints3 fromPoints e this)
    as [[[[] | ex] this1] l1]; [| discriminate].
  destruct (traversals transformPoints3 fromPoints envs this1)
    as [[r2 this2] l2] eqn:Hrest.
  injection H as -> <- <-. exists this1, l1, l2.
  split; [reflexivity | split; [exact Hrest | reflexivity]].
Qed.

Lemma no_reads_filter (log : trace) :
  Forall (fun ev => reads_params ev = false) log ->
  filter (fun ev => reads_params ev = true) log = [].
Proof.
  induction 1 as [| ev l Hev _ IH]; [reflexivity |].
  rewrite filter_cons, decide_False by congruence. exact IH.
Qed.

(** X16. Under model transforms a node with dynamic parameters is never
    frozen: over any number of completed traversals it stays at level 0,
    reads its parameters exactly once per traversal, with the data of that
    traversal, and ends with the extents read last. *)
Theorem X16_dynamic_node_rereads_every_frame
    (envs : list env) (this this' : node) (log : trace) :
  Forall (fun e => identity (getTransform e) = false) envs ->
  _memoLevel this = Some 0 ->
  _fixedParams this = false ->
  traversals transformPoints3 fromPoints envs this = (Normal tt, this', log) ->
  _memoLevel this' = Some 0 /\
  filter (fun ev => reads_params ev = true) log
  = map (fun e => GetParams (Some (data e))) envs /\
  forall e, last envs = Some e ->
            extents_of this' = extents_in (_getParams this (Some (data e))).
Proof.
  intros Hall. revert this log.
  induction Hall as [| e envs Hid _ IH]; intros this log H0 Hdyn Hrun.
  - injection Hrun as <- <-. split; [exact H0 |]. split; [reflexivity |].
    intros e He. discriminate.
  - destruct (traversals_cons_normal _ _ _ _ _ Hrun)
      as (this1 & l1 & l2 & Hstep & Hrest & ->).
    destruct (dynamic_reread_on_transform_path _ _ _ _ Hstep H0 Hdyn Hid)
      as (_ & Hm1 & Hf1 & Hg1 & Hx0 & Hy0 & Hz0 & Hx1 & Hy1 & Hz1).
    destruct (IH _ _ Hm1 Hf1 Hrest) as (Hm & Hreads & Hlast).
    split; [exact Hm |]. split.
    + rewrite filter_app, Hreads. cbn [map].
      destruct (dynamic_traversal _ _ _ _ _ Hstep H0 Hdyn)
        as (thisi & ri & li & Hinit & _ & _ & rest & -> & Hrest' & Hab & _).
      destruct (_init_frame (_getParams this (Some (data e))) this)
        as (r' & t' & l' & Heq' & _ & Hr').
      rewrite Heq' in Hinit. injection Hinit as -> -> ->.
      destruct ri as [[] | ex].
      * destruct Hr' as [-> _]. cbn [app].
        rewrite filter_cons, decide_True by reflexivity.
        now rewrite (no_reads_filter _ Hrest').
      * destruct (Hab ex eq_refl) as [Habs _]. discriminate.
    + intros e' He'. destruct envs as [| e2 envs].
      * injection Hrest as <- _. injection He' as <-.
        unfold extents_of, extents_in. congruence.
      * rewrite (Hlast e' He'), Hg1. reflexivity.
Qed.

(** ** The visibility tests *)

(** The five shapes of the log of the third block. *)
Lemma render_visible_shapes (e : env) (this : node) :
  let vb := _viewBox this in
  exists lv : trace,
    render_visible e this = (Normal tt, this, lv) /\
    ((testAxisBoxIntersectOuterRadius e vb = false /\
      lv = [OuterRadiusTest vb]) \/
     (testAxisBoxIntersectOuterRadius e vb = true /\
      testAxisBoxIntersectInnerRadius e vb = false /\
      lv = [OuterRadiusTest vb; InnerRadiusTest vb; RenderNodes]) \/
     (testAxisBoxIntersectOuterRadius e vb = true /\
      testAxisBoxIntersectInnerRadius e vb = true /\
      testAxisBoxIntersection e vb = SceneJS_math_OUTSIDE_FRUSTUM /\
      lv = [OuterRadiusTest vb; InnerRadiusTest vb; FrustumTest vb]) \/
     (testAxisBoxIntersectOuterRadius e vb = true /\
      testAxisBoxIntersectInnerRadius e vb = true /\
      testAxisBoxIntersection e vb <> SceneJS_math_OUTSIDE_FRUSTUM /\
      _levels this = None /\
      lv = [OuterRadiusTest vb; InnerRadiusTest vb; FrustumTest vb;
            RenderNodes]) \/
     (testAxisBoxIntersectOuterRadius e vb = true /\
      testAxisBoxIntersectInnerRadius e vb = true /\
      testAxisBoxIntersection e vb <> SceneJS_math_OUTSIDE_FRUSTUM /\
      exists (ls : list Z) (lod : trace),
        _levels this = Some ls /\
        (lod = [] \/ exists i, lod = [RenderNode i]) /\
        lv = [OuterRadiusTest vb; InnerRadiusTest vb; FrustumTest vb;
              ProjectedSize vb] ++ lod)).
Proof.
  intros vb. subst vb.
  destruct (testAxisBoxIntersectOuterRadius e (_viewBox this)) eqn:Ho.
  2:{ rewrite (render_visible_outside _ _ Ho). eexists. split; [reflexivity |].
      left. now split. }
  destruct (testAxisBoxIntersectInnerRadius e (_viewBox this)) eqn:Hi.
  2:{ rewrite (render_visible_staging _ _ Ho Hi). eexists.
      split; [reflexivity |]. right; left. now repeat split. }
  destruct (decide (testAxisBoxIntersection e (_viewBox this)
                    = SceneJS_math_OUTSIDE_FRUSTUM)) as [Hf | Hf].
  { rewrite (render_visible_culled _ _ Ho Hi Hf). eexists.
    split; [reflexivity |]. right; right; left. now repeat split. }
  destruct (_levels this) as [ls |] eqn:Hl.
  2:{ rewrite (render_visible_all _ _ Ho Hi Hf Hl). eexists.
      split; [reflexivity |]. right; right; right; left. now repeat split. }
  rewrite (render_visible_lod _ _ _ Ho Hi Hf Hl). eexists.
  split; [reflexivity |]. right; right; right; right.
  split; [reflexivity |]. split; [reflexivity |]. split; [exact Hf |].
  exists ls. eexists. split; [reflexivity |]. split; [| reflexivity].
  destruct (lod_loop_spec ls (getProjectedSize e (_viewBox this)) (length ls) this)
    as [(i & _ & Heq & _) | [Heq _]]; rewrite Heq; cbn; eauto.
Qed.

Lemma cache_log_no_queries (log : trace) :
  cache_log log -> filter (fun ev => is_query ev = true) log = [].
Proof.
  induction 1 as [| ev l Hev _ IH]; [reflexivity |].
  rewrite filter_cons, decide_False; [exact IH |].
  destruct ev; cbn in *; congruence.
Qed.

(** X17. A box inside both radii but outside the frustum is culled: no
    child is traversed and the projected size is not asked for, with or
    without thresholds. *)
Theorem X17_outside_frustum_is_culled
    (e : env) (this this' : node) (log : trace) :
  _render transformPoints3 fromPoints e this = (Normal tt, this', log) ->
  testAxisBoxIntersectOuterRadius e (_viewBox this') = true ->
  testAxisBoxIntersectInnerRadius e (_viewBox this') = true ->
  testAxisBoxIntersection e (_viewBox this') = SceneJS_math_OUTSIDE_FRUSTUM ->
  filter (fun ev => dispatches ev = true) log = [] /\
  traversed (_children this') log = [] /\
  filter (fun ev => is_query ev = true) log
  = [OuterRadiusTest (_viewBox this'); InnerRadiusTest (_viewBox this');
     FrustumTest (_viewBox this')].
Proof.
  intros Hrun Ho Hi Hf.
  destruct (_render_normal _ _ _ _ Hrun) as (l01 & lv & -> & Hl01 & Hv).
  rewrite (render_visible_culled _ _ Ho Hi Hf) in Hv. injection Hv as <-.
  rewrite !filter_app, (cache_log_filter _ Hl01), (cache_log_no_queries _ Hl01),
    traversed_app, (cache_log_traversed _ _ Hl01).
  repeat split.
Qed.

(** X18. Without thresholds a box inside both radii and not outside the
    frustum has all its children traversed, in order, by one call; the
    projected size is not asked for. *)
Theorem X18_plain_culling_traverses_all
    (e : env) (this this' : node) (log : trace) :
  _render transformPoints3 fromPoints e this = (Normal tt, this', log) ->
  _levels this' = None ->
  testAxisBoxIntersectOuterRadius e (_viewBox this') = true ->
  testAxisBoxIntersectInnerRadius e (_viewBox this') = true ->
  testAxisBoxIntersection e (_viewBox this') <> SceneJS_math_OUTSIDE_FRUSTUM ->
  filter (fun ev => dispatches ev = true) log = [RenderNodes] /\
  traversed (_children this') log = seq 0 (_children this') /\
  forall b, ~ In (ProjectedSize b) log.
Proof.
  intros Hrun Hl Ho Hi Hf.
  destruct (_render_normal _ _ _ _ Hrun) as (l01 & lv & -> & Hl01 & Hv).
  rewrite (render_visible_all _ _ Ho Hi Hf Hl) in Hv. injection Hv as <-.
  rewrite !filter_app, (cache_log_filter _ Hl01),
    traversed_app, (cache_log_traversed _ _ Hl01).
  split; [reflexivity |]. split; [cbn; now rewrite app_nil_r |].
  intros b Hin. apply in_app_or in Hin as [Hin | Hin].
  - apply (cache_log_no_query _ _ Hl01) in Hin. discriminate.
  - cbn in Hin. intuition discriminate.
Qed.

(** X19. A traversal calls [_renderNode] or [_renderNodes] at most once,
    whatever the node and the scene; with thresholds installed and the box
    inside the inner radius it traverses at most one child. *)
Theorem X19_at_most_one_dispatch
    (e : env) (this this' : node) (r : completion unit) (log : trace) :
  _render transformPoints3 fromPoints e this = (r, this', log) ->
  (length (filter (fun ev => dispatches ev = true) log) <= 1)%nat /\
  (_levels this' <> None ->
   testAxisBoxIntersectInnerRadius e (_viewBox this') = true ->
   (length (traversed (_children this') log) <= 1)%nat).
Proof.
  intros Hrun. destruct r as [[] | ex].
  2:{ pose proof (_render_abrupt _ _ _ _ _ Hrun) as Hl.
      rewrite (cache_log_filter _ Hl), (cache_log_traversed _ _ Hl).
      cbn. split; [lia | intros; lia]. }
  destruct (_render_normal _ _ _ _ Hrun) as (l01 & lv & -> & Hl01 & Hv).
  rewrite filter_app, (cache_log_filter _ Hl01),
    traversed_app, (cache_log_traversed _ _ Hl01).
  destruct (render_visible_shapes e this') as (lv' & Hv' & Hshape).
  rewrite Hv in Hv'. injection Hv' as <-. cbn [app].
  destruct Hshape
    as [(_ & ->) | [(_ & Hi & ->) | [(_ & _ & _ & ->)
       | [(_ & _ & _ & Hl & ->)
       | (_ & _ & _ & ls & lod & Hl & [-> | [i ->]] & ->)]]]];
    (split; [vm_compute; lia |]); intros Hlev Hin; try congruence;
    vm_compute; lia.
Qed.

(** X20. The visibility queries of a completed traversal follow one
    protocol, all on the box the traversal ends with: the outer-radius test
    always; the inner-radius test if that passed; the frustum test if that
    passed too; the projected size only if the box is not outside the
    frustum and thresholds are installed. *)
Theorem X20_query_protocol
    (e : env) (this this' : node) (log : trace) :
  _render transformPoints3 fromPoints e this = (Normal tt, this', log) ->
  let vb := _viewBox this' in
  filter (fun ev => is_query ev = true) log
  = OuterRadiusTest vb ::
    (if testAxisBoxIntersectOuterRadius e vb then
       InnerRadiusTest vb ::
       (if testAxisBoxIntersectInnerRadius e vb then
          FrustumTest vb ::
          (match testAxisBoxIntersection e vb, _levels this' with
           | SceneJS_math_OUTSIDE_FRUSTUM, _ | _, None => []
           | _, Some _ => [ProjectedSize vb]
           end)
        else [])
     else []).
Proof.
  intros Hrun vb. subst vb.
  destruct (_render_normal _ _ _ _ Hrun) as (l01 & lv & -> & Hl01 & Hv).
  rewrite filter_app, (cache_log_no_queries _ Hl01). cbn [app].
  destruct (render_visible_shapes e this') as (lv' & Hv' & Hshape).
  rewrite Hv in Hv'. injection Hv' as <-.
  destruct Hshape
    as [(Ho & ->) | [(Ho & Hi & ->) | [(Ho & Hi & Hf & ->)
       | [(Ho & Hi & Hf & Hl & ->)
       | (Ho & Hi & Hf & ls & lod & Hl & Hlod & ->)]]]];
    rewrite Ho; try rewrite Hi; try rewrite Hf; try rewrite Hl;
    try reflexivity.
  - now destruct (testAxisBoxIntersection e (_viewBox this')).
  - assert (Hq : filter (fun ev : event Data Matrix => is_query ev = true) lod = [])
      by (destruct Hlod as [-> | [i ->]]; reflexivity).
    change ([OuterRadiusTest (_viewBox this'); InnerRadiusTest (_viewBox this');
             FrustumTest (_viewBox this'); ProjectedSize (_viewBox this')] ++ lod)
      with (OuterRadiusTest (_viewBox this') :: InnerRadiusTest (_viewBox this')
            :: FrustumTest (_viewBox this') :: ProjectedSize (_viewBox this')
            :: lod).
    rewrite !filter_cons. cbn [is_query queried_box]. 
    rewrite !decide_True by reflexivity. rewrite Hq.
    now destruct (testAxisBoxIntersection e (_viewBox this')).
Qed.

(** ** The LOD loop *)

Lemma strictly_ascending_lt (ls : list Z) (i j : nat) (a b : Z) :
  strictly_ascending ls ->
  (i < j)%nat -> ls !! i = Some a -> ls !! j = Some b -> a < b.
Proof.
  intros Hasc. revert b. induction j as [| j IH]; intros b Hij Ha Hb; [lia |].
  destruct (decide (i = j)) as [-> | Hne].
  - apply (Hasc (S j) a b); [lia | | exact Hb].
    now replace (S j - 1)%nat with j by lia.
  - destruct (lookup_lt_is_Some_2 ls j) as [c Hc].
    { apply lookup_lt_Some in Hb. lia. }
    assert (a < c) by (apply IH; [lia | exact Ha | exact Hc]).
    assert (c < b).
    { apply (Hasc (S j) c b); [lia | | exact Hb].
      now replace (S j - 1)%nat with j by lia. }
    lia.
Qed.

(** X21. The selection is monotone in the projected size: if some child is
    selected at one size, then at any larger size a child is selected too,
    and its index is not smaller. *)
Theorem X21_lod_selection_is_monotone
    (ls : list Z) (size1 size2 : Z) (this : node) (i1 : nat) :
  size1 <= size2 ->
  snd (lod_loop ls size1 (length ls) this) = ([RenderNode i1] : trace) ->
  exists i2,
    snd (lod_loop ls size2 (length ls) this) = ([RenderNode i2] : trace) /\
    (i1 <= i2)%nat.
Proof.
  intros Hle H1.
  destruct (lod_loop_spec ls size1 (length ls) this)
    as [(i & Hi & Heq & (l & Hl & Hl1) & _) | [Heq _]];
    rewrite Heq in H1; [| discriminate].
  injection H1 as ->.
  destruct (lod_loop_spec ls size2 (length ls) this)
    as [(i2 & Hi2 & Heq2 & _ & Habove) | [Heq2 Hnone]]; rewrite Heq2.
  - exists i2. split; [reflexivity |].
    destruct (decide (i1 <= i2)%nat) as [| Hgt]; [assumption |].
    specialize (Habove i1 l ltac:(lia) Hl). lia.
  - specialize (Hnone i1 l Hi Hl). lia.
Qed.

(** X22. With strictly ascending thresholds the child selected is the one
    whose threshold is immediately below the size: if [levels[i] <= size]
    and [size < levels[i+1]] (or [i] is the last index), the loop renders
    child [i], and the thresholds of all earlier children are below the
    size as well. *)
Theorem X22_threshold_immediately_below
    (ls : list Z) (size : Z) (this : node) (i : nat) (l : Z) :
  strictly_ascending ls ->
  ls !! i = Some l ->
  l <= size ->
  (forall l', ls !! S i = Some l' -> size < l') ->
  snd (lod_loop ls size (length ls) this) = ([RenderNode i] : trace) /\
  forall j lj, (j <= i)%nat -> ls !! j = Some lj -> lj <= size.
Proof.
  intros Hasc Hl Hle Hnext. split.
  - destruct (lod_loop_spec ls size (length ls) this)
      as [(i' & Hi' & Heq & (l' & Hl' & Hle') & Habove) | [Heq Hnone]];
      rewrite Heq; cbn.
    + destruct (lt_eq_lt_dec i i') as [[Hlt | ->] | Hgt]; [| reflexivity |].
      * destruct (lookup_lt_is_Some_2 ls (S i)) as [c Hc]; [lia |].
        specialize (Hnext c Hc).
        destruct (decide (S i = i')) as [<- | Hne];
          [rewrite Hc in Hl'; injection Hl' as <-; lia |].
        pose proof (strictly_ascending_lt ls (S i) i' c l' Hasc ltac:(lia) Hc Hl').
        lia.
      * specialize (Habove i l ltac:(split; [lia | eapply lookup_lt_Some; eauto]) Hl).
        lia.
    + specialize (Hnone i l ltac:(eapply lookup_lt_Some; eauto) Hl). lia.
  - intros j lj Hj Hlj. destruct (decide (j = i)) as [-> | Hne].
    + rewrite Hl in Hlj. injection Hlj as <-. exact Hle.
    + pose proof (strictly_ascending_lt ls j i lj l Hasc ltac:(lia) Hlj Hl). lia.
Qed.

End Properties.

Arguments extents_of {Data} this.
Arguments well_formed {Data} this.
Arguments SetXMin {Data Matrix} v.
Arguments SetYMin {Data Matrix} v.
Arguments SetZMin {Data Matrix} v.
Arguments SetXMax {Data Matrix} v.
Arguments SetYMax {Data Matrix} v.
Arguments SetZMax {Data Matrix} v.
Arguments SetBoundary {Data Matrix} boundary.
Arguments Render {Data Matrix} e.
Arguments is_setter {Data Matrix} o.
Arguments perform {Data Matrix} transformPoints3 fromPoints o this.
Arguments perform_all {Data Matrix} transformPoints3 fromPoints ops this.
Arguments is_query {Data Matrix} ev.
Arguments reads_params {Data Matrix} ev.

(** * The documented node, frame by frame *)

Lemma lod_box_is_new :
  new_BoundingBox (Data:=Z) (Matrix:=Z)
    {| config := FixedConfig (cube_params 2 (Some [10; 200; 400; 600]));
       children := 4 |}
  = (Normal tt, lod_box, [GetParams None]).
Proof. reflexivity. Qed.

(** C3. Code at fault: a new node traversed with no model transform while
    instancing is active ends the traversal at memo level 2, although the
    transition on the path with a model transform is guarded by
    [!SceneJS_instancingModule.instancing()]. *)
Theorem C3_identity_path_enters_full_under_instancing :
  let e := scene 0 true true true 250 in
  instancing e = true /\
  _memoLevel lod_box = Some 0 /\
  _memoLevel (snd (fst (_render translate_points box_of_points e lod_box)))
  = Some 2.
Proof. repeat split. Qed.

(** C6. Code at fault: a node with dynamic parameters traversed with no
    model transform reads its parameters on the first traversal only; on
    the second one the half-width given for the frame is 3 and the node
    still has 1. *)
Theorem C6_dynamic_parameters_frozen_under_identity :
  let run := traversals translate_points box_of_points
               [scene 1 true true false 250; scene 3 true true false 250]
               pulsing_box in
  _fixedParams pulsing_box = false /\
  fst (fst run) = Normal tt /\
  filter (fun ev => recomputes ev = true) (snd run) = [GetParams (Some 1)] /\
  _xmax (snd (fst run)) = 1 /\
  xmax (_getParams pulsing_box (Some 3)) = Some 3 /\
  _memoLevel (snd (fst run)) = Some 2.
Proof. repeat split. Qed.

(** C4, as stated, fails on a new node: its memo level is 0, not undefined,
    and its first traversal transforms the corner points and applies the
    outer-radius test to the resulting box, not to [null]. *)
Lemma C4_counterexample_new_node_derives_box :
  let run := _render translate_points box_of_points
               (scene 0 false true false 250) lod_box in
  let box := Some {| box_min := (3, -2, -2); box_max := (7, 2, 2) |} in
  _memoLevel lod_box = Some 0 /\
  _viewBox (snd (fst run)) = box /\
  snd run = [TransformPoints3 5 (Some (objectCoords_of lod_box));
             OuterRadiusTest box; InnerRadiusTest box; FrustumTest box;
             ProjectedSize box; RenderNode 1] /\
  ~ (_memoLevel lod_box = None /\
     _viewBox (snd (fst run)) = None /\
     In (OuterRadiusTest None) (snd run)).
Proof.
  intros run box. repeat split. intros (H & _). discriminate H.
Qed.

(** C10, as stated, fails when the list also has the wrong length: with
    two children and levels 10, 10, 20 the error raised is the mismatch
    error, and the ordering error is never reported. *)
Lemma C10_counterexample_mismatch_comes_first :
  let run := new_BoundingBox (Data:=Z) (Matrix:=Z)
               {| config := FixedConfig (cube_params 2 (Some [10; 10; 20]));
                  children := 2 |} in
  unordered_pair [10; 10; 20] /\
  fst (fst run) = Abrupt ConfigMismatch /\
  fst (fst run) <> Abrupt ConfigOrder /\
  ~ In (FatalError ConfigOrder) (snd run).
Proof.
  intros run. split; [| split; [| split]].
  - exists 1%nat, 10, 10. repeat split; lia.
  - reflexivity.
  - intros H. apply ConfigMismatch_neq_ConfigOrder. now injection H.
  - cbn. intros [H | [H | []]]; [discriminate H |].
    apply ConfigMismatch_neq_ConfigOrder. now injection H.
Qed.

(** * The theorems at the documented node *)

Lemma C1_witness_size_250 :
  let e := scene 0 false true false 250 in
  let run := _render translate_points box_of_points e lod_box in
  let this' := snd (fst run) in
  let size := getProjectedSize e (_viewBox this') in
  (exists i, largest_level_below [10; 200; 400; 600] size i /\
             filter (fun ev => dispatches ev = true) (snd run) = [RenderNode i] /\
             traversed (_children this') (snd run) = [i])
  \/
  ((forall j l, [10; 200; 400; 600] !! j = Some l -> size < l) /\
   filter (fun ev => dispatches ev = true) (snd run) = [] /\
   traversed (_children this') (snd run) = []).
Proof.
  intros e run this' size.
  apply (proj1 (C1_lod_selects_largest_level_below
                  Z Z translate_points box_of_points)
               e lod_box this' (snd run) [10; 200; 400; 600]);
    [reflexivity | reflexivity | reflexivity | reflexivity | discriminate].
Defined.

Lemma C2_witness_two_more_frames :
  _memoLevel frozen_box = Some 2 /\
  exists log,
    traversals translate_points box_of_points
      [scene 1 false false true 600; scene 2 true true false 5] frozen_box
    = (Normal tt, frozen_box, log) /\
    Forall (fun ev => recomputes ev = false /\
                      forall b, queried_box ev = Some b -> b = _viewBox frozen_box)
           log.
Proof.
  split; [reflexivity |].
  apply (C2_full_state_reuses_cached_box Z Z translate_points box_of_points).
  reflexivity.
Defined.

Lemma C4_witness_level_0_and_undefined :
  let e := scene 0 true true false 250 in
  let run := _render translate_points box_of_points e lod_box in
  _viewBox (snd (fst run)) = Some (viewBox_of (snd (fst run))) /\
  exists log,
    _render translate_points box_of_points e (set_memoLevel None lod_box)
    = (Normal tt, set_memoLevel None lod_box, OuterRadiusTest None :: log) /\
    Forall (fun ev => recomputes ev = false) log.
Proof.
  intros e run.
  destruct (C4_memo_level_of_new_node Z Z translate_points box_of_points)
    as (_ & _ & _ & _ & Hzero & Hundef).
  split.
  - apply (Hzero e lod_box (snd (fst run)) (snd run)); reflexivity.
  - apply (Hundef e (set_memoLevel None lod_box)). reflexivity.
Defined.

Lemma C7_witness_beyond_outer_radius :
  let e := far_scene false true in
  let run := _render translate_points box_of_points e lod_box in
  testAxisBoxIntersectOuterRadius e (_viewBox (snd (fst run))) = false /\
  Forall (fun ev => dispatches ev = false) (snd run) /\
  traversed (_children (snd (fst run))) (snd run) = [] /\
  forall b, ~ In (InnerRadiusTest b) (snd run) /\
            ~ In (FrustumTest b) (snd run) /\
            ~ In (ProjectedSize b) (snd run).
Proof.
  intros e run. split; [reflexivity |].
  apply (C7_outer_radius_miss_skips_subtree Z Z translate_points box_of_points
           e lod_box (snd (fst run)) (fst (fst run)) (snd run));
    reflexivity.
Defined.

Lemma C8_witness_between_the_radii :
  let e := far_scene true false in
  let run := _render translate_points box_of_points e lod_box in
  testAxisBoxIntersection e (_viewBox (snd (fst run)))
  = SceneJS_math_OUTSIDE_FRUSTUM /\
  _levels (snd (fst run)) = Some [10; 200; 400; 600] /\
  filter (fun ev => dispatches ev = true) (snd run) = [RenderNodes] /\
  traversed (_children (snd (fst run))) (snd run) = [0; 1; 2; 3]%nat /\
  forall b, ~ In (FrustumTest b) (snd run) /\ ~ In (ProjectedSize b) (snd run).
Proof.
  intros e run. split; [reflexivity |]. split; [reflexivity |].
  apply (C8_staging_traverses_all_children Z Z translate_points box_of_points
           e lod_box (snd (fst run)) (snd run));
    reflexivity.
Defined.

Lemma C9_witness_one_level_too_many :
  (exists this',
     _init (Matrix:=Z) (cube_params 2 (Some [10; 200; 400])) pulsing_box
     = (Abrupt ConfigMismatch, this', [FatalError ConfigMismatch]) /\
     _levels this' = _levels pulsing_box)
  /\
  (exists this' log,
     _render translate_points box_of_points (scene 1 false true false 250)
             scripted_box
     = (Abrupt ConfigMismatch, this', log) /\
     _levels this' = _levels scripted_box /\
     traversed (_children scripted_box) log = []).
Proof.
  destruct (C9_levels_length_mismatch_is_fatal Z Z translate_points box_of_points)
    as (Hinit & _ & _ & Hrender).
  split.
  - apply (Hinit _ [10; 200; 400]); [reflexivity | cbn; lia].
  - apply (Hrender _ _ [10; 200; 400]); [reflexivity .. | cbn; lia].
Defined.

Lemma C10_witness_out_of_order_and_in_order :
  (exists this' log,
     _render translate_points box_of_points (scene 2 false true false 250)
             scripted_box
     = (Abrupt ConfigOrder, this', log) /\
     _levels this' = _levels scripted_box /\
     traversed (_children scripted_box) log = [])
  /\
  (exists this',
     _init (Matrix:=Z) (cube_params 2 (Some [10; 200])) scripted_box
     = (Normal tt, this', []) /\
     _levels this' = Some [10; 200]).
Proof.
  destruct (C10_unordered_levels_are_fatal Z Z translate_points box_of_points)
    as (_ & Hok & _ & _ & Hrender & _).
  split.
  - apply (Hrender _ _ [200; 10]); [reflexivity .. |].
    exists 1%nat, 200, 10. repeat split; lia.
  - apply (Hok _ [10; 200]); [reflexivity | reflexivity |].
    intros i a b Hi Ha Hb.
    destruct i as [| [| [| i]]]; cbn in Ha, Hb; try discriminate; try lia.
    injection Ha as <-. injection Hb as <-. lia.
Defined.

(** * The further properties at concrete nodes *)

Lemma documented_levels_ascending : strictly_ascending [10; 200; 400; 600].
Proof.
  intros i a b Hi Ha Hb.
  destruct i as [| [| [| [| i]]]]; cbn in Ha, Hb; try discriminate; try lia;
    injection Ha as <-; injection Hb as <-; lia.
Qed.

Lemma X4_witness_rejected_parameters :
  let run := _init (Matrix:=Z) (cube_params 2 (Some [10; 10])) pulsing_box in
  fst (fst run) = Abrupt ConfigOrder /\
  extents_of (snd (fst run)) = (-2, -2, -2, 2, 2, 2) /\
  _memoLevel (snd (fst run)) = _memoLevel pulsing_box /\
  _objectCoords (snd (fst run)) = _objectCoords pulsing_box /\
  _viewBox (snd (fst run)) = _viewBox pulsing_box /\
  (forall ex, fst (fst run) = Abrupt ex ->
     _levels (snd (fst run)) = _levels pulsing_box /\
     snd run = [FatalError ex]).
Proof.
  intros run. split; [reflexivity |].
  apply (X4_init_stores_extents_first Z Z (cube_params 2 (Some [10; 10]))
           pulsing_box (snd (fst run)) (fst (fst run)) (snd run)).
  reflexivity.
Defined.

Lemma X5_witness_pulsing_node :
  exists this' log,
    _render translate_points box_of_points (scene 3 false true false 250)
            (set_levels (Some [10; 200]) pulsing_box)
    = (Normal tt, this', log) /\
    _levels this' = Some [10; 200] /\
    extents_of this' = (-3, -3, -3, 3, 3, 3).
Proof.
  apply (X5_missing_levels_keep_thresholds Z Z translate_points box_of_points
           (scene 3 false true false 250)
           (set_levels (Some [10; 200]) pulsing_box));
    reflexivity.
Defined.

Lemma X6_witness_leaf_node :
  let e := scene 0 true true false 250 in
  let run := _render translate_points box_of_points e leaf_box in
  _init (Matrix:=Z) (cube_params 1 (Some [])) leaf_box
  = (Normal tt, set_levels (Some []) (assign_extents (cube_params 1 (Some [])) leaf_box),
     []) /\
  filter (fun ev => dispatches ev = true) (snd run) = [].
Proof.
  intros e run.
  destruct (X6_short_levels Z Z translate_points box_of_points) as [Hinit Hrun].
  split.
  - apply (Hinit _ []); [reflexivity | cbn; lia | reflexivity].
  - apply (Hrun e leaf_box (snd (fst run)) (snd run)); reflexivity.
Defined.

Lemma X7_witness_documented_node :
  exists this' log,
    _render translate_points box_of_points (scene 0 false true false 250) lod_box
    = (Normal tt, this', log) /\
    extents_of this' = extents_of lod_box /\
    _levels this' = _levels lod_box /\
    _children this' = _children lod_box /\
    _fixedParams this' = _fixedParams lod_box /\
    _getParams this' = _getParams lod_box /\
    Forall (fun ev => reads_params ev = false /\
                      forall ex, ev <> FatalError ex) log.
Proof.
  apply (X7_static_traversal_never_fails Z Z translate_points box_of_points).
  left. reflexivity.
Defined.

Lemma X8_witness_one_level_too_many :
  let e := scene 1 false true false 250 in
  let run := _render translate_points box_of_points e scripted_box in
  fst (fst run) = Abrupt ConfigMismatch /\
  _fixedParams scripted_box = false /\
  _memoLevel scripted_box = Some 0 /\
  (ConfigMismatch = ConfigMismatch \/ ConfigMismatch = ConfigOrder) /\
  snd run = [GetParams (Some 1); FatalError ConfigMismatch] /\
  _memoLevel (snd (fst run)) = Some 0 /\
  _levels (snd (fst run)) = _levels scripted_box /\
  _objectCoords (snd (fst run)) = _objectCoords scripted_box /\
  _viewBox (snd (fst run)) = _viewBox scripted_box /\
  extents_of (snd (fst run)) = extents_in (_getParams scripted_box (Some 1)).
Proof.
  intros e run. split; [reflexivity |].
  apply (X8_aborted_traversal Z Z translate_points box_of_points
           e scripted_box (snd (fst run)) ConfigMismatch (snd run)).
  reflexivity.
Defined.

Lemma X9_witness_no_model_transform :
  let e := scene 0 true true false 250 in
  let run := _render translate_points box_of_points e lod_box in
  _viewBox (snd (fst run))
  = Some {| box_min := (-2, -2, -2); box_max := (2, 2, 2) |} /\
  _memoLevel (snd (fst run)) = Some 2 /\
  _objectCoords (snd (fst run)) = _objectCoords lod_box /\
  forall m c, ~ In (TransformPoints3 m c) (snd run).
Proof.
  intros e run.
  apply (X9_identity_box_is_the_extents Z Z translate_points box_of_points
           e lod_box (snd (fst run)) (snd run));
    reflexivity.
Defined.

Lemma X10_witness_static_translation :
  let e := scene 0 false true false 250 in
  exists lv,
    _render translate_points box_of_points e lod_box
    = (Normal tt,
       set_memoLevel (Some 2)
         (set_objectCoords None
            (set_viewBox
               (Some (box_of_points
                        (translate_points 5 (Some (objectCoords_of lod_box)))))
               lod_box)),
       TransformPoints3 5 (Some (objectCoords_of lod_box)) :: lv) /\
    Forall (fun ev => recomputes ev = false) lv.
Proof.
  intros e.
  apply (X10_static_transform_freezes_at_once Z Z translate_points box_of_points
           e lod_box);
    reflexivity.
Defined.

Lemma X11_witness_moving_then_static :
  _memoLevel partial_box = Some 1 /\
  (exists this' lv,
     _render translate_points box_of_points (scene 1 true false false 250)
             partial_box
     = (Normal tt, this', TransformPoints3 5 (_objectCoords partial_box) :: lv) /\
     Forall (fun ev => recomputes ev = false) lv /\
     _viewBox this'
     = Some (box_of_points (translate_points 5 (_objectCoords partial_box))) /\
     _memoLevel this' = Some 1 /\
     _objectCoords this' = _objectCoords partial_box).
Proof.
  split; [reflexivity |].
  apply (X11_partial_level_recomputes Z Z translate_points box_of_points
           (scene 1 true false false 250) partial_box).
  reflexivity.
Defined.

Lemma X12_witness_level_0_to_1 :
  let run := _render translate_points box_of_points
               (scene 0 false false false 250) lod_box in
  exists b, _memoLevel (snd (fst run)) = Some b /\ 0 <= b <= Z.max 0 2.
Proof.
  intros run.
  apply (X12_memo_level_never_decreases Z Z translate_points box_of_points
           (scene 0 false false false 250) lod_box
           (snd (fst run)) (fst (fst run)) (snd run) 0);
    reflexivity.
Defined.

Lemma X13_witness_a_session :
  let ops := [Render (scene 0 false false false 250); SetXMin (-3);
              Render (scene 1 false true true 250); SetBoundary (cube_params 1 None);
              Render (scene 2 false true false 600)] in
  let run := perform_all translate_points box_of_points ops lod_box in
  well_formed lod_box /\
  well_formed (snd (fst run)) /\
  forall m c, In (TransformPoints3 m c) (snd run) -> c <> None.
Proof.
  intros ops run.
  assert (Hwf : well_formed lod_box) by (right; left; reflexivity).
  split; [exact Hwf |].
  apply (X13_well_formed_is_invariant Z Z translate_points box_of_points
           ops lod_box (snd (fst run)) (fst (fst run)) (snd run) Hwf).
  vm_compute. reflexivity.
Defined.

Lemma X14_witness_widen_a_frozen_node :
  let e := scene 0 true true false 250 in
  exists s this' log,
    perform translate_points box_of_points (SetXMin (-3)) frozen_box
    = (Normal tt, s, []) /\
    (bind (perform translate_points box_of_points (SetXMin (-3)))
          (fun _ => _render translate_points box_of_points e)) frozen_box
    = (Normal tt, this', log) /\
    extents_of this' = extents_of s /\
    _viewBox this' = Some (viewBox_of s).
Proof.
  intros e.
  apply (X14_setter_takes_effect Z Z translate_points box_of_points
           (SetXMin (-3)) e frozen_box);
    reflexivity.
Defined.

Lemma X15_witness_setter_on_pulsing_node :
  let e := scene 3 false true false 250 in
  let run := (bind (perform translate_points box_of_points (SetXMin (-7)))
                   (fun _ => _render translate_points box_of_points e))
               pulsing_box in
  extents_of (snd (fst run)) = (-3, -3, -3, 3, 3, 3) /\
  In (GetParams (Some 3)) (snd run).
Proof.
  intros e run.
  apply (X15_setter_is_overwritten Z Z translate_points box_of_points
           (SetXMin (-7)) e pulsing_box (snd (fst run)) (fst (fst run)) (snd run));
    reflexivity.
Defined.

Lemma X16_witness_three_frames :
  let envs := [scene 1 false true false 250; scene 3 false true false 250;
               scene 2 false false true 250] in
  let run := traversals translate_points box_of_points envs pulsing_box in
  _memoLevel (snd (fst run)) = Some 0 /\
  filter (fun ev => reads_params ev = true) (snd run)
  = [GetParams (Some 1); GetParams (Some 3); GetParams (Some 2)] /\
  forall e, last envs = Some e ->
            extents_of (snd (fst run))
            = extents_in (_getParams pulsing_box (Some (data e))).
Proof.
  intros envs run.
  apply (X16_dynamic_node_rereads_every_frame Z Z translate_points box_of_points
           envs pulsing_box (snd (fst run)) (snd run));
    [repeat constructor | reflexivity | reflexivity | vm_compute; reflexivity].
Defined.

Lemma X17_witness_behind_the_viewer :
  let e := far_scene true true in
  let run := _render translate_points box_of_points e lod_box in
  let vb := _viewBox (snd (fst run)) in
  filter (fun ev => dispatches ev = true) (snd run) = [] /\
  traversed (_children (snd (fst run))) (snd run) = [] /\
  filter (fun ev => is_query ev = true) (snd run)
  = [OuterRadiusTest vb; InnerRadiusTest vb; FrustumTest vb].
Proof.
  intros e run vb.
  apply (X17_outside_frustum_is_culled Z Z translate_points box_of_points
           e lod_box (snd (fst run)) (snd run));
    reflexivity.
Defined.

Lemma X18_witness_pulsing_node :
  let e := scene 3 false true false 250 in
  let run := _render translate_points box_of_points e pulsing_box in
  filter (fun ev => dispatches ev = true) (snd run) = [RenderNodes] /\
  traversed (_children (snd (fst run))) (snd run) = [0; 1]%nat /\
  forall b, ~ In (ProjectedSize b) (snd run).
Proof.
  intros e run.
  apply (X18_plain_culling_traverses_all Z Z translate_points box_of_points
           e pulsing_box (snd (fst run)) (snd run));
    [reflexivity | reflexivity | reflexivity | reflexivity | discriminate].
Defined.

Lemma X19_witness_documented_node :
  let e := scene 0 false true false 250 in
  let run := _render translate_points box_of_points e lod_box in
  (length (filter (fun ev => dispatches ev = true) (snd run)) <= 1)%nat /\
  (length (traversed (_children (snd (fst run))) (snd run)) <= 1)%nat.
Proof.
  intros e run.
  destruct (X19_at_most_one_dispatch Z Z translate_points box_of_points
              e lod_box (snd (fst run)) (fst (fst run)) (snd run) eq_refl)
    as [Hcalls Hchildren].
  split; [exact Hcalls |]. apply Hchildren; [discriminate | reflexivity].
Defined.

Lemma X20_witness_documented_node :
  let e := scene 0 false true false 250 in
  let run := _render translate_points box_of_points e lod_box in
  let vb := _viewBox (snd (fst run)) in
  filter (fun ev => is_query ev = true) (snd run)
  = [OuterRadiusTest vb; InnerRadiusTest vb; FrustumTest vb; ProjectedSize vb].
Proof.
  intros e run vb.
  apply (X20_query_protocol Z Z translate_points box_of_points
           e lod_box (snd (fst run)) (snd run)).
  reflexivity.
Defined.

Lemma X21_witness_zooming_in :
  250 <= 600 /\
  exists i2,
    snd (lod_loop (Matrix:=Z) [10; 200; 400; 600] 600 4 lod_box) = [RenderNode i2] /\
    (1 <= i2)%nat.
Proof.
  split; [lia |].
  apply (X21_lod_selection_is_monotone Z Z [10; 200; 400; 600] 250 600 lod_box 1);
    [lia | reflexivity].
Defined.

Lemma X22_witness_size_250 :
  snd (lod_loop (Matrix:=Z) [10; 200; 400; 600] 250 4 lod_box) = [RenderNode 1] /\
  forall j lj, (j <= 1)%nat -> [10; 200; 400; 600] !! j = Some lj -> lj <= 250.
Proof.
  apply (X22_threshold_immediately_below Z Z [10; 200; 400; 600] 250 lod_box 1 200);
    [exact documented_levels_ascending | reflexivity | lia |].
  intros l' Hl'. injection Hl' as <-. lia.
Defined.

Lemma X23_witness_three_moving_frames :
  let envs := [scene 1 false false false 250; scene 2 false true true 250;
               scene 3 true false true 250] in
  exists this' log,
    traversals translate_points box_of_points envs partial_box
    = (Normal tt, this', log) /\
    _memoLevel this' = Some 1 /\
    _objectCoords this' = _objectCoords partial_box /\
    filter (fun ev => recomputes ev = true) log
    = map (fun e => TransformPoints3 (matrix (getTransform e))
                                     (_objectCoords partial_box)) envs /\
    forall e, last envs = Some e ->
      _viewBox this'
      = Some (box_of_points (translate_points (matrix (getTransform e))
                                              (_objectCoords partial_box))).
Proof.
  intros envs.
  apply (X23_moving_node_recomputes_every_frame Z Z translate_points
           box_of_points envs partial_box);
    [repeat constructor | reflexivity].
Defined.

Lemma X3_witness_documented_node :
  exists r this log,
    SceneJS_BoundingBox (Matrix:=Z)
      (SceneJS_Node (Data:=Z)
         {| config := FixedConfig (cube_params 2 (Some [10; 200; 400; 600]));
            children := 4 |})
    = (r, this, log) /\
    _objectCoords this = None /\
    _viewBox this = None /\
    (forall m c, ~ In (TransformPoints3 m c) log) /\
    extents_of this = (-2, -2, -2, 2, 2, 2) /\
    (r = Normal tt -> _levels this = Some [10; 200; 400; 600]) /\
    (forall ex, r = Abrupt ex -> _levels this = None).
Proof.
  apply (X3_construction_computes_no_geometry Z Z
           (SceneJS_Node
              {| config := FixedConfig (cube_params 2 (Some [10; 200; 400; 600]));
                 children := 4 |})).
Defined.
